(** * The Windows self-update service

  A shallow embedding of [Win32UpdateService]: the update state machine,
  the download-and-verify pipeline, the cache janitor and the installer
  hand-off, together with the properties they satisfy.

  Promise chains are embedded in a state-and-error monad over the service
  record: [then] is bind, a rejection (or a thrown exception) is the error
  case, and [.then(null, handler)] is [catch]. The outcomes of the
  operating system and of the network are supplied by an [IO] record, so
  every definition is a total, executable function. *)

From Stdlib Require Import String Ascii List Bool Arith Lia.
From stdpp Require Import base option list gmap strings fin_maps.
Import ListNotations.

Local Open Scope string_scope.
Local Open Scope list_scope.

(** ** JavaScript values *)

Module Js.

(** A value of type [any], as far as the service looks at it. *)
Inductive any : Type :=
| undefined
| null
| boolean (b : bool)
| str (s : string)
| object (id : nat).

Definition truthy_string (s : string) : bool :=
  negb (String.eqb s "").

(** [!!v] *)
Definition truthy (v : any) : bool :=
  match v with
  | undefined | null => false
  | boolean b => b
  | str s => truthy_string s
  | object _ => true
  end.

(** An optional string property: absent, or present with some value. *)
Definition truthy_opt (o : option string) : bool :=
  match o with
  | Some s => truthy_string s
  | None => false
  end.

(** What a promise is rejected with, or what a statement throws: an
    [Error] object carrying a message, or a bare string. *)
Inductive Err : Type :=
| Error (message : string)
| Str (s : string).

(** [err.message || err] *)
Definition message_or_self (err : Err) : Err :=
  match err with
  | Error m => if truthy_string m then Str m else Error m
  | Str s => Str s
  end.

(** The text an error carries. *)
Definition text (err : Err) : string :=
  match err with
  | Error m => m
  | Str s => s
  end.

Inductive Result (A : Type) : Type :=
| Resolved (a : A)
| Rejected (e : Err).
Arguments Resolved {A} a.
Arguments Rejected {A} e.

Definition settle (failure : option Err) : Result unit :=
  match failure with
  | Some e => Rejected e
  | None => Resolved tt
  end.

(** [xs.filter(f)] for a callback that may throw: the first exception ends
    the traversal. *)
Fixpoint filter_result {A} (f : A -> Result bool) (xs : list A) : Result (list A) :=
  match xs with
  | [] => Resolved []
  | x :: xs' =>
      match f x with
      | Rejected e => Rejected e
      | Resolved b =>
          match filter_result f xs' with
          | Rejected e => Rejected e
          | Resolved ys => Resolved (if b then x :: ys else ys)
          end
      end
  end.

End Js.
Export Js.

(** ** Tasks: promise chains over a store *)

Module Task.

Definition t (W A : Type) : Type := W -> W * Result A.

Definition ret {W A} (a : A) : t W A := fun w => (w, Resolved a).

Definition reject {W A} (e : Err) : t W A := fun w => (w, Rejected e).

Definition lift {W A} (r : Result A) : t W A := fun w => (w, r).

(** [p.then(k)] *)
Definition bind {W A B} (p : t W A) (k : A -> t W B) : t W B :=
  fun w =>
    match p w with
    | (w', Resolved a) => k a w'
    | (w', Rejected e) => (w', Rejected e)
    end.

(** [p.then(null, handler)] *)
Definition catch {W A} (p : t W A) (handler : Err -> t W A) : t W A :=
  fun w =>
    match p w with
    | (w', Resolved a) => (w', Resolved a)
    | (w', Rejected e) => handler e w'
    end.

Definition get {W} : t W W := fun w => (w, Resolved w).

Definition modify {W} (f : W -> W) : t W unit := fun w => (f w, Resolved tt).

(** [Promise.join]: every task runs; the join is rejected when one of them
    is (with the first error here, WinJS collects them all). *)
Fixpoint join {W A} (ps : list (t W A)) : t W (list A) :=
  match ps with
  | [] => ret []
  | p :: ps' =>
      fun w =>
        match p w with
        | (w', r) =>
            match join ps' w', r with
            | (w'', Resolved xs), Resolved x => (w'', Resolved (x :: xs))
            | (w'', Resolved _), Rejected e => (w'', Rejected e)
            | (w'', Rejected e'), Resolved _ => (w'', Rejected e')
            | (w'', Rejected _), Rejected e => (w'', Rejected e)
            end
        end
  end.

(** A promise nobody waits for: its rejection goes unobserved. *)
Definition detach {W A} (p : t W A) : t W unit :=
  fun w => (fst (p w), Resolved tt).

End Task.

Declare Scope task_scope.
Delimit Scope task_scope with task.
Notation "x <- p ;; k" := (Task.bind p (fun x => k))
  (at level 100, p at next level, k at level 200, right associativity) : task_scope.
Notation "p ;;; k" := (Task.bind p (fun _ => k))
  (at level 100, k at level 200, right associativity) : task_scope.

(** ** Paths and strings *)

Module Path.

Definition sep : string := "\".

(** [path.join(dir, name)] for a directory and a simple entry name. *)
Definition join (dir name : string) : string := dir +:+ sep +:+ name.

Fixpoint strip_prefix (p s : string) : option string :=
  match p, s with
  | EmptyString, _ => Some s
  | String a p', String b s' =>
      if Ascii.eqb a b then strip_prefix p' s' else None
  | String _ _, EmptyString => None
  end.

Definition is_sep (c : ascii) : bool :=
  Ascii.eqb c "\"%char || Ascii.eqb c "/"%char.

Fixpoint has_sep (s : string) : bool :=
  match s with
  | EmptyString => false
  | String c s' => is_sep c || has_sep s'
  end.

(** The entry name of [p] when [p] lies directly inside [dir]. *)
Definition entry_of (dir p : string) : option string :=
  match strip_prefix (dir +:+ sep) p with
  | Some name => if has_sep name || String.eqb name "" then None else Some name
  | None => None
  end.

End Path.

(** ** The fragment of regular expressions the janitor builds *)

Module RegExp.

Inductive Atom : Type :=
| Lit (c : ascii)
| AnyChar.

(** The characters with a meaning of their own in a pattern. *)
Definition is_meta (c : ascii) : bool :=
  existsb (Ascii.eqb c) (list_ascii_of_string "\^$.|?*+()[]{}").

Definition is_line_terminator (c : ascii) : bool :=
  Ascii.eqb c "010"%char || Ascii.eqb c "013"%char.

Definition atom_matches (a : Atom) (c : ascii) : bool :=
  match a with
  | Lit c' => Ascii.eqb c' c
  | AnyChar => negb (is_line_terminator c)
  end.

Definition add (a : Atom) (r : option (list Atom * bool)) : option (list Atom * bool) :=
  match r with
  | Some (atoms, anchored) => Some (a :: atoms, anchored)
  | None => None
  end.

(** Patterns made of literal characters, [.], the escape [\.] and a final
    [$]. The result is the sequence of atoms and whether the match is
    anchored at the end of the input; [None] for a pattern with any other
    operator. *)
Fixpoint parse (src : list ascii) : option (list Atom * bool) :=
  match src with
  | [] => Some ([], false)
  | c :: rest =>
      if Ascii.eqb c "\"%char then
        match rest with
        | d :: rest' => if Ascii.eqb d "."%char then add (Lit d) (parse rest') else None
        | [] => None
        end
      else if Ascii.eqb c "$"%char then
        match rest with
        | [] => Some ([], true)
        | _ :: _ => None
        end
      else if Ascii.eqb c "."%char then add AnyChar (parse rest)
      else if is_meta c then None
      else add (Lit c) (parse rest)
  end.

Fixpoint match_here (atoms : list Atom) (anchored : bool) (s : list ascii) : bool :=
  match atoms with
  | [] => if anchored then match s with [] => true | _ :: _ => false end else true
  | a :: atoms' =>
      match s with
      | [] => false
      | c :: s' => atom_matches a c && match_here atoms' anchored s'
      end
  end.

(** A pattern is not anchored at the start: it is tried at every position. *)
Fixpoint search (atoms : list Atom) (anchored : bool) (s : list ascii) : bool :=
  match_here atoms anchored s ||
  match s with
  | [] => false
  | _ :: s' => search atoms anchored s'
  end.

(** The atom a character of the fragment stands for, outside an escape. *)
Definition atom_of (c : ascii) : Atom :=
  if Ascii.eqb c "."%char then AnyChar else Lit c.

(** The characters that stand for themselves or are the wildcard. *)
Definition safe (c : ascii) : bool :=
  Ascii.eqb c "."%char || negb (is_meta c).

(** [new RegExp(source).test(input)]. A pattern outside the fragment is
    handed to [engine], the JavaScript engine (which throws a SyntaxError
    on an ill-formed pattern). *)
Definition test (engine : string -> string -> Result bool) (source input : string) : Result bool :=
  match parse (list_ascii_of_string source) with
  | Some (atoms, anchored) => Resolved (search atoms anchored (list_ascii_of_string input))
  | None => engine source input
  end.

End RegExp.

(** Letters and digits. *)
Definition is_alnum (c : ascii) : bool :=
  let n := nat_of_ascii c in
  ((48 <=? n) && (n <=? 57) || (65 <=? n) && (n <=? 90) || (97 <=? n) && (n <=? 122))%nat.

Definition alnum (s : string) : bool :=
  forallb is_alnum (list_ascii_of_string s).

(** ** Data model *)

Inductive UpdateType : Type :=
| Setup
| Archive.

(** The update descriptor parsed from the feed. A required property that is
    missing reads as the empty string: both are falsy. *)
Record IUpdate : Type := {
  version : string;
  productVersion : string;
  url : string;
  hash : option string;
  supportsFastUpdate : bool
}.

Inductive StateType : Type :=
| TIdle
| TCheckingForUpdates
| TAvailableForDownload
| TDownloading
| TDownloaded
| TUpdating
| TReady.

(** [Idle] carries [err.message || err] when the cycle failed. *)
Inductive State : Type :=
| Idle (updateType : UpdateType) (error : option Err)
| CheckingForUpdates (context : any)
| AvailableForDownload (update : IUpdate)
| Downloading (update : IUpdate)
| Downloaded (update : IUpdate)
| Updating (update : IUpdate)
| Ready (update : IUpdate).

Definition type (s : State) : StateType :=
  match s with
  | Idle _ _ => TIdle
  | CheckingForUpdates _ => TCheckingForUpdates
  | AvailableForDownload _ => TAvailableForDownload
  | Downloading _ => TDownloading
  | Downloaded _ => TDownloaded
  | Updating _ => TUpdating
  | Ready _ => TReady
  end.

Definition is_downloaded_or_downloading (s : State) : option IUpdate :=
  match s with
  | Downloaded u | Downloading u => Some u
  | _ => None
  end.

Record IAvailableUpdate : Type := {
  packagePath : string;
  updateFilePath : option string
}.

(** What does not change while the service runs. *)
Record Env : Type := {
  product_quality : string;
  product_target : string;
  product_win32MutexName : string;
  (** [this.url], the feed URL, absent when updates are switched off *)
  feedUrl : option string;
  (** the memoised [getUpdateType()] *)
  updateType : UpdateType;
  (** the memoised [cachePath]: the directory, once [mkdirp] has settled *)
  cachePath : Result string;
  (** the digest [checksum] computes of a file's contents *)
  sha1 : string -> string;
  (** the JavaScript engine on the patterns [RegExp] does not interpret *)
  regexp_engine : string -> string -> Result bool
}.

(** The outcomes of one cycle's input and output. *)
Record IO : Type := {
  (** [pfs.readdir] fails *)
  readdir_error : option Err;
  (** [pfs.unlink] fails on this path *)
  unlink_error : string -> option Err;
  (** the request for the package fails *)
  request_error : option Err;
  (** what [download] wrote to the file, and the stream error if it stopped early *)
  download_written : string;
  download_error : option Err;
  (** [pfs.rename] fails *)
  rename_error : option Err;
  (** [update.enableWindowsBackgroundUpdates] *)
  fastUpdatesEnabled : bool
}.

(** A telemetry event: its name and its [explicit] property. *)
Record TelemetryEvent : Type := {
  eventName : string;
  explicit : bool
}.

(** The service, what it has done to the outside, and the work it has
    outstanding. Logs grow at the head. *)
Record Service : Type := {
  state : State;
  availableUpdate : option IAvailableUpdate;
  (** files by path *)
  files : gmap string string;
  (** the states announced through [onStateChange] *)
  announced : list State;
  telemetry : list TelemetryEvent;
  errorLog : list Err;
  (** the URLs requested *)
  requests : list string;
  (** the processes spawned: executable and arguments *)
  spawned : list (string * list string);
  (** the URLs opened in the browser *)
  opened : list string;
  (** feed requests in flight, with their [context] *)
  feeds : list any;
  (** package acquisitions in flight *)
  acquisitions : list (any * IUpdate);
  (** marker files being written, with the path written to *)
  markers : list (IUpdate * string);
  (** installers running with an exit observer *)
  children : nat;
  (** readiness polls running, each with its [update] *)
  polls : list IUpdate
}.

Definition with_state (x : State) (s : Service) : Service :=
  {| state := x; availableUpdate := availableUpdate s; files := files s;
     announced := announced s; telemetry := telemetry s; errorLog := errorLog s;
     requests := requests s; spawned := spawned s; opened := opened s;
     feeds := feeds s; acquisitions := acquisitions s; markers := markers s;
     children := children s; polls := polls s |}.

Definition with_availableUpdate (x : option IAvailableUpdate) (s : Service) : Service :=
  {| state := state s; availableUpdate := x; files := files s;
     announced := announced s; telemetry := telemetry s; errorLog := errorLog s;
     requests := requests s; spawned := spawned s; opened := opened s;
     feeds := feeds s; acquisitions := acquisitions s; markers := markers s;
     children := children s; polls := polls s |}.

Definition with_files (x : gmap string string) (s : Service) : Service :=
  {| state := state s; availableUpdate := availableUpdate s; files := x;
     announced := announced s; telemetry := telemetry s; errorLog := errorLog s;
     requests := requests s; spawned := spawned s; opened := opened s;
     feeds := feeds s; acquisitions := acquisitions s; markers := markers s;
     children := children s; polls := polls s |}.

Definition with_announced (x : list State) (s : Service) : Service :=
  {| state := state s; availableUpdate := availableUpdate s; files := files s;
     announced := x; telemetry := telemetry s; errorLog := errorLog s;
     requests := requests s; spawned := spawned s; opened := opened s;
     feeds := feeds s; acquisitions := acquisitions s; markers := markers s;
     children := children s; polls := polls s |}.

Definition with_telemetry (x : list TelemetryEvent) (s : Service) : Service :=
  {| state := state s; availableUpdate := availableUpdate s; files := files s;
     announced := announced s; telemetry := x; errorLog := errorLog s;
     requests := requests s; spawned := spawned s; opened := opened s;
     feeds := feeds s; acquisitions := acquisitions s; markers := markers s;
     children := children s; polls := polls s |}.

Definition with_errorLog (x : list Err) (s : Service) : Service :=
  {| state := state s; availableUpdate := availableUpdate s; files := files s;
     announced := announced s; telemetry := telemetry s; errorLog := x;
     requests := requests s; spawned := spawned s; opened := opened s;
     feeds := feeds s; acquisitions := acquisitions s; markers := markers s;
     children := children s; polls := polls s |}.

Definition with_requests (x : list string) (s : Service) : Service :=
  {| state := state s; availableUpdate := availableUpdate s; files := files s;
     announced := announced s; telemetry := telemetry s; errorLog := errorLog s;
     requests := x; spawned := spawned s; opened := opened s;
     feeds := feeds s; acquisitions := acquisitions s; markers := markers s;
     children := children s; polls := polls s |}.

Definition with_spawned (x : list (string * list string)) (s : Service) : Service :=
  {| state := state s; availableUpdate := availableUpdate s; files := files s;
     announced := announced s; telemetry := telemetry s; errorLog := errorLog s;
     requests := requests s; spawned := x; opened := opened s;
     feeds := feeds s; acquisitions := acquisitions s; markers := markers s;
     children := children s; polls := polls s |}.

Definition with_opened (x : list string) (s : Service) : Service :=
  {| state := state s; availableUpdate := availableUpdate s; files := files s;
     announced := announced s; telemetry := telemetry s; errorLog := errorLog s;
     requests := requests s; spawned := spawned s; opened := x;
     feeds := feeds s; acquisitions := acquisitions s; markers := markers s;
     children := children s; polls := polls s |}.

Definition with_feeds (x : list any) (s : Service) : Service :=
  {| state := state s; availableUpdate := availableUpdate s; files := files s;
     announced := announced s; telemetry := telemetry s; errorLog := errorLog s;
     requests := requests s; spawned := spawned s; opened := opened s;
     feeds := x; acquisitions := acquisitions s; markers := markers s;
     children := children s; polls := polls s |}.

Definition with_acquisitions (x : list (any * IUpdate)) (s : Service) : Service :=
  {| state := state s; availableUpdate := availableUpdate s; files := files s;
     announced := announced s; telemetry := telemetry s; errorLog := errorLog s;
     requests := requests s; spawned := spawned s; opened := opened s;
     feeds := feeds s; acquisitions := x; markers := markers s;
     children := children s; polls := polls s |}.

Definition with_markers (x : list (IUpdate * string)) (s : Service) : Service :=
  {| state := state s; availableUpdate := availableUpdate s; files := files s;
     announced := announced s; telemetry := telemetry s; errorLog := errorLog s;
     requests := requests s; spawned := spawned s; opened := opened s;
     feeds := feeds s; acquisitions := acquisitions s; markers := x;
     children := children s; polls := polls s |}.

Definition with_children (x : nat) (s : Service) : Service :=
  {| state := state s; availableUpdate := availableUpdate s; files := files s;
     announced := announced s; telemetry := telemetry s; errorLog := errorLog s;
     requests := requests s; spawned := spawned s; opened := opened s;
     feeds := feeds s; acquisitions := acquisitions s; markers := markers s;
     children := x; polls := polls s |}.

Definition with_polls (x : list IUpdate) (s : Service) : Service :=
  {| state := state s; availableUpdate := availableUpdate s; files := files s;
     announced := announced s; telemetry := telemetry s; errorLog := errorLog s;
     requests := requests s; spawned := spawned s; opened := opened s;
     feeds := feeds s; acquisitions := acquisitions s; markers := markers s;
     children := children s; polls := x |}.

Abbreviation TPromise := (Task.t Service).

Local Open Scope task_scope.

(** ** Collaborators *)

(** Modelled from the spec: [setState] of the abstract update service, which
    is not part of the sources at hand. The new state replaces the current
    one and is announced to the user-interface sink. *)
Definition setState (x : State) : TPromise unit :=
  Task.modify (fun s => with_announced (x :: announced s) (with_state x s)).

(** [telemetryService.publicLog(name, { explicit })]: the event goes to the
    telemetry sink. *)
Definition publicLog (name : string) (e : bool) : TPromise unit :=
  Task.modify (fun s =>
    with_telemetry ({| eventName := name; explicit := e |} :: telemetry s) s).

(** [logService.error(err)] *)
Definition logError (err : Err) : TPromise unit :=
  Task.modify (fun s => with_errorLog (err :: errorLog s) s).

(** Modelled from the spec: [requestService.request({ url })], followed for
    the feed by [asJson]; neither is part of the sources at hand. The request
    is issued, and settles as the network and the parser decide. *)
Definition request {A} (u : string) (outcome : Result A) : TPromise A :=
  Task.modify (fun s => with_requests (u :: requests s) s) ;;;
  Task.lift outcome.

(** [spawn(command, args, { detached })] *)
Definition spawn (command : string) (args : list string) : TPromise unit :=
  Task.modify (fun s => with_spawned ((command, args) :: spawned s) s).

(** The wrappers of [vs/base/node/pfs] over the file system. The file system
    holds plain files by path; strings are sequences of 8-bit characters. *)
Module Pfs.

Definition ENOENT : Err := Error "ENOENT: no such file or directory".

(** The names of the entries of [dir]: the files directly in it. *)
Definition entries (dir : string) (fs : gmap string string) : list string :=
  omap (Path.entry_of dir) (map_to_list fs).*1.

(** Modelled from the spec: [pfs.readdir], which is not part of the sources
    at hand. It lists the entries of the directory, or fails. *)
Definition readdir (io : IO) (dir : string) : TPromise (list string) :=
  match readdir_error io with
  | Some e => Task.reject e
  | None => s <- Task.get ;; Task.ret (entries dir (files s))
  end.

(** Modelled from the spec: [pfs.exists], which is not part of the sources
    at hand. It tells whether there is a file at the path, and never
    rejects. *)
Definition exists_ (p : string) : TPromise bool :=
  s <- Task.get ;; Task.ret (bool_decide (is_Some (files s !! p))).

(** Modelled from the spec: [pfs.unlink], which is not part of the sources
    at hand. It deletes the file, or fails and leaves it. *)
Definition unlink (io : IO) (p : string) : TPromise unit :=
  match unlink_error io p with
  | Some e => Task.reject e
  | None =>
      s <- Task.get ;;
      match files s !! p with
      | Some _ => Task.modify (fun s => with_files (delete p (files s)) s)
      | None => Task.reject ENOENT
      end
  end.

(** Modelled from the spec: [pfs.rename], which is not part of the sources
    at hand. The file moves to its new path in one step, or the rename fails
    and nothing moves. *)
Definition rename (io : IO) (from to : string) : TPromise unit :=
  match rename_error io with
  | Some e => Task.reject e
  | None =>
      s <- Task.get ;;
      match files s !! from with
      | Some c => Task.modify (fun s => with_files (<[to := c]> (delete from (files s))) s)
      | None => Task.reject ENOENT
      end
  end.

(** Modelled from the spec: [pfs.writeFile], which is not part of the
    sources at hand. It writes the marker file, or fails. *)
Definition writeFile (failure : option Err) (p contents : string) : TPromise unit :=
  match failure with
  | Some e => Task.reject e
  | None => Task.modify (fun s => with_files (<[p := contents]> (files s)) s)
  end.

(** [fs.unlinkSync] throws when there is no such file. *)
Definition unlinkSync (p : string) : TPromise unit :=
  s <- Task.get ;;
  match files s !! p with
  | Some _ => Task.modify (fun s => with_files (delete p (files s)) s)
  | None => Task.reject ENOENT
  end.

End Pfs.

(** Modelled from the spec: [download(filePath, context)] of
    [vs/base/node/request], which is not part of the sources at hand. The
    response is streamed into the file; when the stream fails the file keeps
    what had arrived. *)
Definition download (io : IO) (filePath : string) : TPromise unit :=
  Task.modify (fun s => with_files (<[filePath := download_written io]> (files s)) s) ;;;
  match download_error io with
  | Some e => Task.reject e
  | None => Task.ret tt
  end.

Definition hash_mismatch : Err := Error "Hash mismatch".

(** Modelled from the spec: [checksum] of [vs/base/node/crypto], which is not
    part of the sources at hand. The file's digest is computed and compared
    with the expected one; a difference is an error. *)
Definition checksum (env : Env) (p : string) (expected : option string) : TPromise unit :=
  s <- Task.get ;;
  match files s !! p with
  | Some c =>
      if bool_decide (Some (sha1 env c) = expected) then Task.ret tt
      else Task.reject hash_mismatch
  | None => Task.reject Pfs.ENOENT
  end.

(** ** The service *)

Definition dquote : string := String "034"%char EmptyString.

Definition TypeError : Err :=
  Error "Cannot read property of undefined".

Definition updatePackageName (env : Env) (version : string) : string :=
  "CodeSetup-" +:+ product_quality env +:+ "-" +:+ version +:+ ".exe".

Definition updateFlagName (env : Env) (version : string) : string :=
  "CodeSetup-" +:+ product_quality env +:+ "-" +:+ version +:+ ".flag".

Definition getUpdatePackagePath (env : Env) (version : string) : TPromise string :=
  dir <- Task.lift (cachePath env) ;;
  Task.ret (Path.join dir (updatePackageName env version)).

(** *** The cache janitor *)

(** The source of the pattern [`${product.quality}-${exceptVersion}\\.exe$`]. *)
Definition exceptPattern (env : Env) (exceptVersion : string) : string :=
  product_quality env +:+ "-" +:+ exceptVersion +:+ "\.exe$".

(** The atoms of the pattern's fixed tail, [\.exe$]. *)
Definition exe_atoms : list RegExp.Atom :=
  map RegExp.Lit (list_ascii_of_string ".exe").

(** The [filter] of [cleanup]: the entries the janitor deletes. The default
    [null] of [exceptVersion] reads as the empty string: both are falsy. The
    expression is built at every call, so an ill-formed one throws at the
    first entry. *)
Definition cleanupFilter (env : Env) (exceptVersion : string) (one : string) : Result bool :=
  if truthy_string exceptVersion then
    match RegExp.test (regexp_engine env) (exceptPattern env exceptVersion) one with
    | Resolved b => Resolved (negb b)
    | Rejected e => Rejected e
    end
  else Resolved true.

(** [cleanup(exceptVersion)]: every entry the filter selects is unlinked, a
    failure to unlink being swallowed. *)
Definition cleanup (env : Env) (io : IO) (exceptVersion : string) : TPromise unit :=
  dir <- Task.lift (cachePath env) ;;
  all <- Pfs.readdir io dir ;;
  stale <- Task.lift (filter_result (cleanupFilter env exceptVersion) all) ;;
  Task.join (map (fun one =>
               Task.catch (Pfs.unlink io (Path.join dir one)) (fun _ => Task.ret tt))
             stale) ;;;
  Task.ret tt.

(** The files left by the janitor's deletions of the entries [stale] of
    [dir]: a deletion that fails leaves its file. *)
Definition unlinkAll (io : IO) (dir : string) (stale : list string)
  (fs : gmap string string) : gmap string string :=
  foldl (fun fs one =>
           match unlink_error io (Path.join dir one) with
           | Some _ => fs
           | None => delete (Path.join dir one) fs
           end) fs stale.

(** *** Download and verify *)

(** The download step of [doCheckForUpdates]: the cached package when there
    is one, or else the package downloaded to [<path>.tmp], verified when the
    update carries a hash, and renamed into the cache. *)
Definition fetchPackage (env : Env) (io : IO) (update : IUpdate) : TPromise string :=
  updatePackagePath <- getUpdatePackagePath env (version update) ;;
  exists_ <- Pfs.exists_ updatePackagePath ;;
  if exists_ : bool then Task.ret updatePackagePath
  else
    let downloadPath := updatePackagePath +:+ ".tmp" in
    request (url update) (settle (request_error io)) ;;;
    download io downloadPath ;;;
    (if truthy_opt (hash update) then checksum env downloadPath (hash update)
     else Task.ret tt) ;;;
    Pfs.rename io downloadPath updatePackagePath ;;;
    Task.ret updatePackagePath.

(** *** Applying an update *)

Definition verysilentArgs (updateFilePath : option string) : list string :=
  [ "/verysilent";
    "/update=" +:+ dquote +:+ default "undefined" updateFilePath +:+ dquote;
    "/nocloseapplications";
    "/mergetasks=runcode,!desktopicon,!quicklaunchicon" ].

Definition silentArgs : list string :=
  [ "/silent"; "/mergetasks=runcode,!desktopicon,!quicklaunchicon" ].

(** [doApplyUpdate] as far as it runs at once: the guards, the transition to
    [Updating], the marker path recorded (the memoised [cachePath] is settled
    by the time a package is available) and the marker file's write issued. *)
Definition doApplyUpdate (env : Env) : TPromise unit :=
  s <- Task.get ;;
  match is_downloaded_or_downloading (state s) with
  | None => Task.ret tt
  | Some update =>
      match availableUpdate s with
      | None => Task.ret tt
      | Some available =>
          setState (Updating update) ;;;
          dir <- Task.lift (cachePath env) ;;
          let updateFilePath := Path.join dir (updateFlagName env (version update)) in
          Task.modify (with_availableUpdate
            (Some {| packagePath := packagePath available;
                     updateFilePath := Some updateFilePath |})) ;;;
          Task.modify (fun s => with_markers (markers s ++ [(update, updateFilePath)]) s)
      end
  end.

(** The continuation of [doApplyUpdate] once [pfs.writeFile] has settled: the
    installer is spawned, its exit is observed and the readiness poll starts. *)
Definition markerWritten (failure : option Err) (update : IUpdate) (flagPath : string)
  : TPromise unit :=
  Pfs.writeFile failure flagPath "flag" ;;;
  s <- Task.get ;;
  match availableUpdate s with
  | None => Task.reject TypeError
  | Some available =>
      spawn (packagePath available) (verysilentArgs (updateFilePath available)) ;;;
      Task.modify (fun s => with_children (S (children s)) s) ;;;
      Task.modify (fun s => with_polls (polls s ++ [update]) s)
  end.

(** The exit observer of the installer, [child.once('exit', ...)]. *)
Definition installerExited (env : Env) : TPromise unit :=
  Task.modify (with_availableUpdate None) ;;;
  setState (Idle (updateType env) None).

(** One attempt of [pollUntil(() => isActive(readyMutexName))] for the poll
    at position [i], and its continuation: an attempt that finds the mutex
    active completes the poll and makes the service [Ready]; any other
    attempt schedules the next one. *)
Definition pollAttempt (i : nat) (active : bool) : TPromise unit :=
  s <- Task.get ;;
  match polls s !! i with
  | None => Task.ret tt
  | Some update =>
      if active then
        Task.modify (fun s => with_polls (delete i (polls s)) s) ;;;
        setState (Ready update)
      else Task.ret tt
  end.

Definition doQuitAndInstall : TPromise unit :=
  s <- Task.get ;;
  match state s with
  | Ready update =>
      match availableUpdate s with
      | None => Task.reject TypeError
      | Some available =>
          match supportsFastUpdate update, updateFilePath available with
          | true, Some flagPath =>
              if truthy_string flagPath then Pfs.unlinkSync flagPath
              else spawn (packagePath available) silentArgs
          | _, _ => spawn (packagePath available) silentArgs
          end
      end
  | _ => Task.ret tt
  end.

Definition doDownloadUpdate (env : Env) (update : IUpdate) : TPromise unit :=
  Task.modify (fun s => with_opened (url update :: opened s) s) ;;;
  setState (Idle (updateType env) None).

(** *** Checking for updates *)

(** The handler that ends the chain of [doCheckForUpdates],
    [.then(null, err => ...)]. *)
Definition checkFailed (env : Env) (context : any) (err : Err) : TPromise unit :=
  logError err ;;;
  publicLog "update:notAvailable" (truthy context) ;;;
  setState (Idle (updateType env) (Some (message_or_self err))).

(** [!update || !update.url || !update.version || !update.productVersion]
    does not hold. *)
Definition usable (update : option IUpdate) : option IUpdate :=
  match update with
  | Some u =>
      if truthy_string (url u) && truthy_string (version u)
         && truthy_string (productVersion u)
      then Some u else None
  | None => None
  end.

(** What [doCheckForUpdates] does with the parsed feed before any download:
    the result is the update to download, if one is to be downloaded. *)
Definition feedParsed (env : Env) (context : any) (update : option IUpdate)
  : TPromise (option IUpdate) :=
  match usable update with
  | None =>
      publicLog "update:notAvailable" (truthy context) ;;;
      setState (Idle (updateType env) None) ;;;
      Task.ret None
  | Some u =>
      match updateType env with
      | Archive => setState (AvailableForDownload u) ;;; Task.ret None
      | Setup => setState (Downloading u) ;;; Task.ret (Some u)
      end
  end.

(** The package is in the cache: what [doCheckForUpdates] does after the
    download step. The promise of [doApplyUpdate] is dropped. *)
Definition packageReady (env : Env) (io : IO) (update : IUpdate) (packagePath : string)
  : TPromise unit :=
  Task.modify (with_availableUpdate
    (Some {| packagePath := packagePath; updateFilePath := None |})) ;;;
  if fastUpdatesEnabled io && supportsFastUpdate update then
    if String.eqb (product_target env) "user" then Task.detach (doApplyUpdate env)
    else setState (Downloaded update)
  else setState (Ready update).

(** Janitor, download step and what follows, for an update being downloaded. *)
Definition acquire (env : Env) (io : IO) (update : IUpdate) : TPromise unit :=
  cleanup env io (version update) ;;;
  packagePath <- fetchPackage env io update ;;
  packageReady env io update packagePath.

(** The chain of [doCheckForUpdates] before its last handler: [feed] is how
    the feed request and [asJson] settle. *)
Definition checkChain (env : Env) (feedUrl : string) (feed : Result (option IUpdate))
  (io : IO) (context : any) : TPromise unit :=
  update <- request feedUrl feed ;;
  downloading <- feedParsed env context update ;;
  match downloading with
  | Some u => acquire env io u
  | None => Task.ret tt
  end.

(** [doCheckForUpdates], from the call to the end of its chain. *)
Definition doCheckForUpdates (env : Env) (feed : Result (option IUpdate)) (io : IO)
  (context : any) : TPromise unit :=
  match feedUrl env with
  | None => Task.ret tt
  | Some feedUrl =>
      if truthy_string feedUrl then
        setState (CheckingForUpdates context) ;;;
        Task.catch (checkChain env feedUrl feed io context) (checkFailed env context)
      else Task.ret tt
  end.

(** ** The readiness poll *)

(** [pollUntil(fn)]: [fn] is read once per attempt, [fn k] being what the
    attempt numbered [k] reads. The result is the attempt that completes the
    promise, when one of the next [attempts] attempts does; the source sets
    no limit to their number. *)
Fixpoint pollUntil (fn : nat -> bool) (attempt attempts : nat) : option nat :=
  match attempts with
  | 0 => None
  | S attempts' =>
      if fn attempt then Some attempt
      else pollUntil fn (S attempt) attempts'
  end.

(** ** The service as a reactive system *)

(** What happens to the service: a call of one of its operations, or the
    settling of work it has outstanding. *)
Inductive Event : Type :=
| CheckForUpdates (context : any)
| FeedSettled (feed : Result (option IUpdate))
| AcquisitionSettled (io : IO)
| ApplyUpdate
| MarkerSettled (failure : option Err)
| InstallerExited
| PollAttempt (i : nat) (active : bool)
| QuitAndInstall
| DownloadUpdate.

(** The end of a download: the one event that can make a package available. *)
Definition is_acquisition (e : Event) : bool :=
  match e with
  | AcquisitionSettled _ => true
  | _ => false
  end.


(** [doCheckForUpdates] up to its first suspension: the feed request is out. *)
Definition checkStarted (env : Env) (context : any) : TPromise unit :=
  match feedUrl env with
  | None => Task.ret tt
  | Some feedUrl =>
      if truthy_string feedUrl then
        setState (CheckingForUpdates context) ;;;
        Task.modify (fun s => with_requests (feedUrl :: requests s) s) ;;;
        Task.modify (fun s => with_feeds (feeds s ++ [context]) s)
      else Task.ret tt
  end.

(** Modelled from the spec: [checkForUpdates] of the abstract update service,
    which is not part of the sources at hand. A check is a no-op unless the
    current state is [Idle]. *)
Definition checkForUpdates (env : Env) (context : any) : TPromise unit :=
  s <- Task.get ;;
  match state s with
  | Idle _ _ => checkStarted env context
  | _ => Task.ret tt
  end.

(** Modelled from the spec: [downloadUpdate] of the abstract update service,
    which is not part of the sources at hand. It is meaningful from
    [AvailableForDownload] only. *)
Definition downloadUpdate (env : Env) : TPromise unit :=
  s <- Task.get ;;
  match state s with
  | AvailableForDownload update => doDownloadUpdate env update
  | _ => Task.ret tt
  end.

(** The chain of [doCheckForUpdates] resumed when the feed has settled. *)
Definition feedSettled (env : Env) (feed : Result (option IUpdate)) : TPromise unit :=
  s <- Task.get ;;
  match feeds s with
  | [] => Task.ret tt
  | context :: rest =>
      Task.modify (with_feeds rest) ;;;
      Task.catch
        (update <- Task.lift feed ;;
         downloading <- feedParsed env context update ;;
         match downloading with
         | Some u => Task.modify (fun s => with_acquisitions (acquisitions s ++ [(context, u)]) s)
         | None => Task.ret tt
         end)
        (checkFailed env context)
  end.

(** The chain of [doCheckForUpdates] resumed when janitor and download step
    have settled. *)
Definition acquisitionSettled (env : Env) (io : IO) : TPromise unit :=
  s <- Task.get ;;
  match acquisitions s with
  | [] => Task.ret tt
  | (context, u) :: rest =>
      Task.modify (with_acquisitions rest) ;;;
      Task.catch (acquire env io u) (checkFailed env context)
  end.

Definition markerSettled (failure : option Err) : TPromise unit :=
  s <- Task.get ;;
  match markers s with
  | [] => Task.ret tt
  | (update, flagPath) :: rest =>
      Task.modify (with_markers rest) ;;;
      markerWritten failure update flagPath
  end.

Definition installerExit (env : Env) : TPromise unit :=
  s <- Task.get ;;
  match children s with
  | 0 => Task.ret tt
  | S n => Task.modify (with_children n) ;;; installerExited env
  end.

Definition handle (env : Env) (e : Event) : TPromise unit :=
  match e with
  | CheckForUpdates context => checkForUpdates env context
  | FeedSettled feed => feedSettled env feed
  | AcquisitionSettled io => acquisitionSettled env io
  | ApplyUpdate => doApplyUpdate env
  | MarkerSettled failure => markerSettled failure
  | InstallerExited => installerExit env
  | PollAttempt i active => pollAttempt i active
  | QuitAndInstall => doQuitAndInstall
  | DownloadUpdate => downloadUpdate env
  end.

(** An exception no handler catches leaves the service as it was when thrown. *)
Definition step (env : Env) (s : Service) (e : Event) : Service :=
  fst (handle env e s).

Definition run (env : Env) (s : Service) (trace : list Event) : Service :=
  fold_left (step env) trace s.

(** The service as constructed, over the files already on disk. *)
Definition initial (env : Env) (fs : gmap string string) : Service :=
  {| state := Idle (updateType env) None; availableUpdate := None; files := fs;
     announced := []; telemetry := []; errorLog := [];
     requests := []; spawned := []; opened := [];
     feeds := []; acquisitions := []; markers := [];
     children := 0; polls := [] |}.

(** Two services that differ in their files and in the requests issued at
    most. *)
Definition same_control (s s' : Service) : Prop :=
  state s' = state s /\ availableUpdate s' = availableUpdate s /\
  announced s' = announced s /\ telemetry s' = telemetry s /\
  errorLog s' = errorLog s /\ spawned s' = spawned s /\ opened s' = opened s /\
  feeds s' = feeds s /\ acquisitions s' = acquisitions s /\
  markers s' = markers s /\ children s' = children s /\ polls s' = polls s.

(** A task that touches nothing but files and requests. *)
Definition io_only {A} (p : TPromise A) : Prop :=
  forall s, same_control s (fst (p s)).

(** ** A concrete installation, for examples *)

Module Example.

Definition env (target : string) : Env :=
  {| product_quality := "stable"; product_target := target;
     product_win32MutexName := "vscode";
     feedUrl := Some "https://update.example/api/update/win32-x64/stable/abc";
     updateType := Setup;
     cachePath := Resolved "C:\tmp\vscode-update-x64";
     sha1 := fun contents => "sha1:" +:+ contents;
     regexp_engine := fun _ _ => Rejected (Error "Invalid regular expression") |}.

Definition update (v : string) (h : option string) (fast : bool) : IUpdate :=
  {| version := v; productVersion := "1.25.0"; url := "https://x/pkg";
     hash := h; supportsFastUpdate := fast |}.

(** Input and output that succeed, the package's contents being [body]. *)
Definition io (body : string) (fast : bool) : IO :=
  {| readdir_error := None; unlink_error := fun _ => None; request_error := None;
     download_written := body; download_error := None; rename_error := None;
     fastUpdatesEnabled := fast |}.

Definition dir : string := "C:\tmp\vscode-update-x64".

(** The service as constructed, the cache holding the named files. *)
Definition service (target : string) (cache : list (string * string)) : Service :=
  initial (env target)
    (list_to_map (map (fun entry => (Path.join dir (fst entry), snd entry)) cache)).

(** Input and output that succeed but for the deletion of the entry [locked]. *)
Definition io_locked (locked : string) : IO :=
  {| readdir_error := None;
     unlink_error := fun p =>
       if String.eqb p (Path.join dir locked) then Some (Error "EPERM: operation not permitted")
       else None;
     request_error := None;
     download_written := ""; download_error := None; rename_error := None;
     fastUpdatesEnabled := false |}.

End Example.

(** ** The rest of the service *)

(** [getUpdateType()]: the module-level [_updateType] is computed at the
    first call, from whether [unins000.exe] lies beside the executable, and
    kept. [uninstaller] is what [fs.existsSync] answers at the call; the
    result is the new [_updateType] and the value returned. *)
Definition getUpdateType (uninstaller : bool) (_updateType : option UpdateType)
  : option UpdateType * UpdateType :=
  match _updateType with
  | Some t => (Some t, t)
  | None =>
      let t := if uninstaller then Setup else Archive in
      (Some t, t)
  end.

(** Calls of [getUpdateType()] one after the other, the file system
    answering each as [uninstaller] lists: the values returned. *)
Fixpoint getUpdateType_calls (uninstaller : list bool) (_updateType : option UpdateType)
  : list UpdateType :=
  match uninstaller with
  | [] => []
  | probe :: rest =>
      let '(cache, t) := getUpdateType probe _updateType in
      t :: getUpdateType_calls rest cache
  end.

(** The platform part of [buildUpdateFeedUrl], for [process.arch], the
    update type and [product.target]. *)
Definition updatePlatform (arch : string) (t : UpdateType) (target : string) : string :=
  let platform := "win32" in
  let platform := if String.eqb arch "x64" then platform +:+ "-x64" else platform in
  match t with
  | Archive => platform +:+ "-archive"
  | Setup => if String.eqb target "user" then platform +:+ "-user" else platform
  end.

(** [buildUpdateFeedUrl(quality)]; [createUpdateURL], of the abstract update
    service, is taken as it comes. *)
Definition buildUpdateFeedUrl (createUpdateURL : string -> string -> option string)
  (arch : string) (env : Env) (quality : string) : option string :=
  createUpdateURL (updatePlatform arch (updateType env) (product_target env)) quality.


(** ** Properties of the states the service goes through *)

(** The work the service is waiting for: feed requests, downloads, marker
    files being written, installers running. *)
Definition outstanding (s : Service) : nat :=
  length (feeds s) + length (acquisitions s) + length (markers s) + children s.

(** At most one piece of work is outstanding; there is none while the
    service is [Idle] or [AvailableForDownload], and then no update is
    recorded; none is recorded yet while a check is out; and while a marker
    is being written or an installer runs an update is recorded and the
    service is [Updating] or [Ready]. *)
Definition orderly (s : Service) : Prop :=
  outstanding s <= 1
  /\ (outstanding s <> 0 ->
      type (state s) <> TIdle /\ type (state s) <> TAvailableForDownload)
  /\ (type (state s) = TIdle \/ type (state s) = TAvailableForDownload ->
      availableUpdate s = None)
  /\ (feeds s <> [] \/ acquisitions s <> [] -> availableUpdate s = None)
  /\ (markers s <> [] \/ children s <> 0 ->
      availableUpdate s <> None
      /\ (type (state s) = TUpdating \/ type (state s) = TReady)).

(** The service is [Ready], or a readiness poll is running. *)
Definition awaits_install (s : Service) : Prop :=
  polls s <> [] \/ type (state s) = TReady.

(** The exit of an installer. *)
Definition is_exit (e : Event) : bool :=
  match e with
  | InstallerExited => true
  | _ => false
  end.



(** A path that is not [path.join] of the cache directory and a name. *)
Definition outside (env : Env) (p : string) : Prop :=
  forall dir name, cachePath env = Resolved dir -> p <> Path.join dir name.


(** * Properties *)

Ltac task_unfold :=
  unfold Task.bind, Task.ret, Task.reject, Task.lift, Task.catch, Task.get,
    Task.modify, Task.detach in *.

(** ** Strings and paths *)

Section Strings.

Lemma append_cons (c : ascii) (s t : string) :
  String c s +:+ t = String c (s +:+ t).
Proof. reflexivity. Qed.

Lemma append_assoc (a b c : string) : (a +:+ b) +:+ c = a +:+ (b +:+ c).
Proof.
  induction a as [|x a IH]; [reflexivity |].
  now rewrite !append_cons, IH.
Qed.


Lemma append_length (a b : string) :
  String.length (a +:+ b) = String.length a + String.length b.
Proof.
  induction a as [|x a IH]; [reflexivity |].
  rewrite append_cons. cbn. now rewrite IH.
Qed.

Lemma append_neq_self (a b : string) : b <> "" -> a +:+ b <> a.
Proof.
  intros Hb Heq. apply (f_equal String.length) in Heq.
  rewrite append_length in Heq. destruct b; [congruence | cbn in Heq; lia].
Qed.

Lemma strip_prefix_append (p s : string) : Path.strip_prefix p (p +:+ s) = Some s.
Proof.
  induction p as [|c p IH]; [reflexivity |].
  rewrite append_cons. cbn. now rewrite Ascii.eqb_refl.
Qed.

Lemma strip_prefix_Some (p s r : string) :
  Path.strip_prefix p s = Some r -> s = p +:+ r.
Proof.
  revert s. induction p as [|c p IH]; intros s; cbn.
  - now intros [= ->].
  - destruct s as [|d s]; [discriminate |].
    destruct (Ascii.eqb_spec c d) as [->|]; [| discriminate].
    intros H. now rewrite append_cons, (IH _ H).
Qed.


(** A path is the entry [name] of [dir] exactly when it is [dir] joined with
    [name], a non-empty name without separators. *)
Lemma entry_of_Some (dir p name : string) :
  Path.entry_of dir p = Some name <->
  p = Path.join dir name /\ Path.has_sep name = false /\ name <> "".
Proof.
  unfold Path.entry_of, Path.join. split.
  - destruct (Path.strip_prefix (dir +:+ Path.sep) p) as [n|] eqn:E; [| discriminate].
    apply strip_prefix_Some in E.
    destruct (Path.has_sep n) eqn:Hs; cbn; [discriminate |].
    destruct (String.eqb_spec n ""); [discriminate |].
    intros [= <-]. rewrite E, append_assoc. auto.
  - intros (-> & Hs & Hn). rewrite <- append_assoc, strip_prefix_append, Hs. cbn.
    destruct (String.eqb_spec name ""); congruence.
Qed.

End Strings.

Lemma elem_of_entries (dir name : string) (fs : gmap string string) :
  name ∈ Pfs.entries dir fs <->
  is_Some (fs !! Path.join dir name) /\ Path.has_sep name = false /\ name <> "".
Proof.
  unfold Pfs.entries. rewrite list_elem_of_omap. split.
  - intros (p & Hp & He). apply entry_of_Some in He as (-> & Hs & Hn).
    apply list_elem_of_fmap in Hp as ([p c] & Hp1 & Hp2). cbn in Hp1. subst p.
    apply elem_of_map_to_list in Hp2. eauto.
  - intros ([c Hc] & Hs & Hn). exists (Path.join dir name). split.
    + apply list_elem_of_fmap. exists (Path.join dir name, c). split; [reflexivity |].
      now apply elem_of_map_to_list.
    + now apply entry_of_Some.
Qed.

Lemma NoDup_entries (dir : string) (fs : gmap string string) :
  NoDup (Pfs.entries dir fs).
Proof.
  unfold Pfs.entries.
  assert (Hnd : NoDup (map_to_list fs).*1) by apply NoDup_fst_map_to_list.
  induction Hnd as [|p ps Hp Hnd IH]; cbn; [constructor |].
  destruct (Path.entry_of dir p) as [n|] eqn:E; [| assumption].
  constructor; [| assumption].
  rewrite list_elem_of_omap. intros (q & Hq & Eq).
  apply entry_of_Some in E as (-> & _). apply entry_of_Some in Eq as (-> & _).
  contradiction.
Qed.

(** ** The janitor *)

Lemma with_files_id (s : Service) : with_files (files s) s = s.
Proof. now destruct s. Qed.

Lemma filter_result_Resolved {A} (f : A -> Result bool) (xs ys : list A) :
  filter_result f xs = Resolved ys ->
  forall x, x ∈ ys <-> x ∈ xs /\ f x = Resolved true.
Proof.
  revert ys. induction xs as [|a xs IH]; intros ys; cbn.
  - intros [= <-] x. split; [intros H | intros [H _]]; inversion H.
  - destruct (f a) as [b|e] eqn:Ea; [| discriminate].
    destruct (filter_result f xs) as [zs|e]; [| discriminate].
    intros [= <-] x. specialize (IH zs eq_refl x).
    destruct b; rewrite !elem_of_cons, IH; split.
    + intros [-> | [? ?]]; auto.
    + intros [[-> | ?] ?]; auto.
    + intros [? ?]; auto.
    + intros [[-> | ?] ?]; [congruence | auto].
Qed.

Section Deletions.

Variable io : IO.
Variable dir : string.

Lemma unlinkAll_lookup (stale : list string) (fs : gmap string string) (p c : string) :
  unlinkAll io dir stale fs !! p = Some c <->
  fs !! p = Some c /\
  ~ (exists one, one ∈ stale /\ p = Path.join dir one /\ unlink_error io p = None).
Proof.
  unfold unlinkAll. revert fs.
  induction stale as [|a stale IH]; intros fs; cbn.
  - split; [intros H; split; [assumption |] | tauto].
    intros (one & H1 & _). inversion H1.
  - rewrite IH. split.
    + intros [Hfs Hno].
      destruct (unlink_error io (Path.join dir a)) eqn:Ea.
      * split; [assumption |]. intros (one & Hin & -> & Hu).
        apply elem_of_cons in Hin as [-> | Hin]; [congruence |].
        apply Hno. eauto.
      * apply lookup_delete_Some in Hfs as [Hne Hfs].
        split; [assumption |]. intros (one & Hin & -> & Hu).
        apply elem_of_cons in Hin as [-> | Hin]; [congruence |].
        apply Hno. eauto.
    + intros [Hfs Hno]. split.
      * destruct (unlink_error io (Path.join dir a)) eqn:Ea; [assumption |].
        apply lookup_delete_Some. split; [| assumption].
        intros <-. apply Hno. exists a. rewrite elem_of_cons. auto.
      * intros (one & Hin & -> & Hu). apply Hno. exists one.
        rewrite elem_of_cons. auto.
Qed.

Lemma join_unlinks (stale : list string) (s : Service) :
  Task.join
    (map (fun one => Task.catch (Pfs.unlink io (Path.join dir one)) (fun _ => Task.ret tt))
       stale) s
  = (with_files (unlinkAll io dir stale (files s)) s, Resolved (map (fun _ => tt) stale)).
Proof.
  revert s. induction stale as [|a stale IH]; intros s.
  - cbn. now rewrite with_files_id.
  - cbn [map Task.join]. unfold unlinkAll. cbn [foldl]. fold (unlinkAll io dir stale).
    unfold Pfs.unlink at 1. task_unfold.
    destruct (unlink_error io (Path.join dir a)) eqn:Ea; cbn.
    + now rewrite IH.
    + destruct (files s !! Path.join dir a) eqn:El; cbn.
      * rewrite IH. cbn. reflexivity.
      * rewrite IH. cbn. now rewrite (delete_id _ _ El).
Qed.

End Deletions.

(** The janitor changes nothing but files, and nothing at all when it fails:
    it can only fail before its first deletion. *)
Lemma cleanup_run (env : Env) (io : IO) (exceptVersion : string) (s : Service) :
  match cleanup env io exceptVersion s with
  | (s', Resolved _) =>
      exists dir stale,
        cachePath env = Resolved dir /\
        readdir_error io = None /\
        filter_result (cleanupFilter env exceptVersion) (Pfs.entries dir (files s))
        = Resolved stale /\
        s' = with_files (unlinkAll io dir stale (files s)) s
  | (s', Rejected _) => s' = s
  end.
Proof.
  unfold cleanup, Pfs.readdir, Task.bind, Task.lift, Task.get, Task.reject.
  destruct (cachePath env) as [dir|e] eqn:Ed; cbn; [| reflexivity].
  destruct (readdir_error io) eqn:Er; cbn; [reflexivity |].
  destruct (filter_result _ _) as [stale|e] eqn:Ef; cbn; [| reflexivity].
  rewrite join_unlinks. cbn. eauto 10.
Qed.
Section Patterns.

Import RegExp.

Lemma list_ascii_of_string_app (a b : string) :
  list_ascii_of_string (a +:+ b) = list_ascii_of_string a ++ list_ascii_of_string b.
Proof.
  induction a as [|c a IH]; [reflexivity |].
  rewrite append_cons. cbn. now rewrite IH.
Qed.

Lemma list_ascii_of_string_inj (a b : string) :
  list_ascii_of_string a = list_ascii_of_string b -> a = b.
Proof.
  intros H. apply (f_equal string_of_list_ascii) in H.
  now rewrite !string_of_list_ascii_of_string in H.
Qed.

Lemma is_alnum_facts (c : ascii) :
  is_alnum c = true ->
  is_meta c = false /\ c <> "-"%char /\ c <> "."%char /\ Path.is_sep c = false
  /\ is_line_terminator c = false.
Proof.
  destruct c as [[] [] [] [] [] [] [] []]; cbv; intros H;
    try discriminate H; repeat split; discriminate.
Qed.

Lemma alnum_Forall (s : string) :
  alnum s = true -> Forall (fun c => is_alnum c = true) (list_ascii_of_string s).
Proof.
  unfold alnum. induction (list_ascii_of_string s) as [|c l IH]; cbn; [constructor |].
  intros H. apply andb_prop in H as [Hc Hl]. constructor; auto.
Qed.

Lemma parse_safe_app (l rest : list ascii) :
  Forall (fun c => safe c = true) l ->
  parse (l ++ rest) = foldr (fun c r => add (atom_of c) r) (parse rest) l.
Proof.
  induction 1 as [|c l Hc _ IH]; [reflexivity |].
  cbn [app foldr]. rewrite <- IH. cbn [parse].
  unfold safe in Hc. unfold atom_of.
  apply orb_prop in Hc as [Hc | Hc].
  - apply Ascii.eqb_eq in Hc as ->. reflexivity.
  - apply negb_true_iff in Hc.
    destruct (Ascii.eqb_spec c "\"%char) as [->|]; [cbv in Hc; discriminate Hc |].
    destruct (Ascii.eqb_spec c "$"%char) as [->|]; [cbv in Hc; discriminate Hc |].
    destruct (Ascii.eqb_spec c "."%char) as [->|]; [cbv in Hc; discriminate Hc |].
    now rewrite Hc.
Qed.

Lemma foldr_add (l : list ascii) (atoms : list Atom) (anchored : bool) :
  foldr (fun c r => add (atom_of c) r) (Some (atoms, anchored)) l
  = Some (map atom_of l ++ atoms, anchored).
Proof. induction l as [|c l IH]; cbn; [reflexivity | now rewrite IH]. Qed.

Lemma parse_exceptPattern (env : Env) (v : string) :
  Forall (fun c => safe c = true) (list_ascii_of_string (product_quality env)) ->
  Forall (fun c => safe c = true) (list_ascii_of_string v) ->
  parse (list_ascii_of_string (exceptPattern env v))
  = Some (map atom_of (list_ascii_of_string (product_quality env +:+ "-" +:+ v)) ++ exe_atoms,
          true).
Proof.
  intros Hq Hv. unfold exceptPattern.
  replace (product_quality env +:+ "-" +:+ v +:+ "\.exe$")
    with ((product_quality env +:+ "-" +:+ v) +:+ "\.exe$")
    by now rewrite !append_assoc.
  rewrite list_ascii_of_string_app, parse_safe_app.
  - now rewrite <- foldr_add.
  - rewrite !list_ascii_of_string_app. apply Forall_app. split; [assumption |].
    apply Forall_app. split; [| assumption]. repeat constructor.
Qed.

Lemma match_here_app (l tail : list ascii) (atoms : list Atom) :
  Forall (fun c => is_line_terminator c = false) l ->
  match_here atoms true tail = true ->
  match_here (map atom_of l ++ atoms) true (l ++ tail) = true.
Proof.
  intros Hl Ht. induction Hl as [|c l Hc _ IH]; [assumption |].
  cbn. rewrite IH, andb_true_r. unfold atom_of.
  destruct (Ascii.eqb_spec c "."%char); cbn; [now rewrite Hc | apply Ascii.eqb_refl].
Qed.

Lemma search_suffix (atoms : list Atom) (anchored : bool) (pre suf : list ascii) :
  match_here atoms anchored suf = true -> search atoms anchored (pre ++ suf) = true.
Proof.
  intros H. induction pre as [|c pre IH]; cbn [app].
  - destruct suf; cbn [search]; now rewrite H.
  - cbn [search]. rewrite IH. apply orb_true_r.
Qed.

Lemma search_inv (atoms : list Atom) (anchored : bool) (s : list ascii) :
  search atoms anchored s = true ->
  exists pre suf, s = pre ++ suf /\ match_here atoms anchored suf = true.
Proof.
  induction s as [|c s IH]; cbn [search]; intros H.
  - rewrite orb_false_r in H. exists [], []. auto.
  - apply orb_prop in H as [H | H].
    + exists [], (c :: s). auto.
    + destruct (IH H) as (pre & suf & -> & Hm). exists (c :: pre), suf. auto.
Qed.

Lemma match_here_literal (l s : list ascii) :
  match_here (map Lit l) true s = true -> s = l.
Proof.
  revert s. induction l as [|c l IH]; intros s; cbn.
  - destruct s; [reflexivity | discriminate].
  - destruct s as [|d s]; [discriminate |].
    intros H. apply andb_prop in H as [Hc Hs].
    apply Ascii.eqb_eq in Hc as ->. now rewrite (IH _ Hs).
Qed.



Lemma alnum_stem (q v : string) :
  alnum q = true -> alnum v = true ->
  Forall (fun c => is_alnum c = true \/ c = "-"%char)
    (list_ascii_of_string (q +:+ "-" +:+ v)).
Proof.
  intros Hq Hv. rewrite !list_ascii_of_string_app.
  apply Forall_app. split; [| apply Forall_app; split].
  - eapply Forall_impl; [apply alnum_Forall, Hq | auto].
  - cbn. constructor; [now right | constructor].
  - eapply Forall_impl; [apply alnum_Forall, Hv | auto].
Qed.

Lemma stem_atoms (l : list ascii) :
  Forall (fun c => is_alnum c = true \/ c = "-"%char) l ->
  map atom_of l = map Lit l
  /\ Forall (fun c => safe c = true) l
  /\ Forall (fun c => is_line_terminator c = false) l.
Proof.
  induction 1 as [|c l Hc _ (IH1 & IH2 & IH3)]; [repeat split; constructor |].
  cbn [map]. rewrite IH1.
  destruct Hc as [Hc | ->].
  - apply is_alnum_facts in Hc as (Hm & _ & Hdot & _ & Hl).
    repeat split; try (constructor; try assumption).
    + unfold atom_of. destruct (Ascii.eqb_spec c "."%char); congruence.
    + unfold safe. now rewrite Hm, orb_true_r.
  - repeat split; try (constructor; try assumption); reflexivity.
Qed.

(** For a quality and a version made of letters and digits the janitor's
    filter is a plain suffix test. *)
Lemma cleanupFilter_alnum (env : Env) (V name : string) :
  truthy_string V = true ->
  alnum (product_quality env) = true -> alnum V = true ->
  cleanupFilter env V name =
  Resolved (negb (search (map Lit (list_ascii_of_string (product_quality env +:+ "-" +:+ V +:+ ".exe")))
                    true (list_ascii_of_string name))).
Proof.
  intros Ht Hq Hv. unfold cleanupFilter, test. rewrite Ht.
  destruct (stem_atoms _ (alnum_stem _ _ Hq Hv)) as (Hat & Hsafe & _).
  rewrite !list_ascii_of_string_app in Hsafe.
  apply Forall_app in Hsafe as [Hsq Hsafe]. apply Forall_app in Hsafe as [_ Hsv].
  rewrite (parse_exceptPattern env V Hsq Hsv), Hat.
  unfold exe_atoms. rewrite <- map_app.
  replace (product_quality env +:+ "-" +:+ V +:+ ".exe")
    with ((product_quality env +:+ "-" +:+ V) +:+ ".exe") by now rewrite !append_assoc.
  now rewrite (list_ascii_of_string_app (_ +:+ _) ".exe").
Qed.



End Patterns.





(** ** Download and verify *)

(** Every way the download step can end, the cache directory being [dir]. *)
Lemma fetchPackage_run (env : Env) (io : IO) (update : IUpdate) (s : Service) (dir : string) :
  cachePath env = Resolved dir ->
  let final := Path.join dir (updatePackageName env (version update)) in
  let tmp := final +:+ ".tmp" in
  let requested := with_requests (url update :: requests s) s in
  let written := with_files (<[tmp := download_written io]> (files s)) requested in
  match fetchPackage env io update s with
  | (s', Resolved p) =>
      p = final /\
      ((is_Some (files s !! final) /\ s' = s)
       \/ (files s !! final = None /\
           request_error io = None /\ download_error io = None /\ rename_error io = None /\
           (truthy_opt (hash update) = true ->
            Some (sha1 env (download_written io)) = hash update) /\
           s' = with_files
                  (<[final := download_written io]>
                     (delete tmp (<[tmp := download_written io]> (files s))))
                  written))
  | (s', Rejected e) =>
      files s !! final = None /\
      ((request_error io = Some e /\ s' = requested)
       \/ (request_error io = None /\ s' = written /\
           (download_error io = Some e
            \/ (download_error io = None /\ truthy_opt (hash update) = true /\
                Some (sha1 env (download_written io)) <> hash update /\ e = hash_mismatch)
            \/ (download_error io = None /\ rename_error io = Some e /\
                (truthy_opt (hash update) = true ->
                 Some (sha1 env (download_written io)) = hash update)))))
  end.
Proof.
  intros Hdir final tmp requested written.
  unfold fetchPackage, getUpdatePackagePath, Pfs.exists_, request, download, checksum,
    Pfs.rename, settle.
  task_unfold. rewrite Hdir. cbn. fold final. fold tmp.
  destruct (files s !! final) as [c|] eqn:Ef.
  - rewrite bool_decide_eq_true_2 by eauto. cbn. eauto.
  - rewrite bool_decide_eq_false_2 by (intros [? ?]; discriminate). cbn.
    split_and?; try reflexivity.
    destruct (request_error io) as [e|] eqn:Erq; cbn; [auto |].
    destruct (download_error io) as [e|] eqn:Edl; cbn; [auto 10 |].
    pose proof (lookup_insert_eq (files s) tmp (download_written io)) as Htmp.
    destruct (truthy_opt (hash update)) eqn:Eh; cbn.
    + rewrite Htmp.
      destruct (bool_decide (Some (sha1 env (download_written io)) = hash update)) eqn:Ec; cbn.
      * apply bool_decide_eq_true_1 in Ec.
        destruct (rename_error io) as [e|] eqn:Ern; cbn; [naive_solver |].
        rewrite Htmp. cbn. naive_solver.
      * apply bool_decide_eq_false_1 in Ec. naive_solver.
    + destruct (rename_error io) as [e|] eqn:Ern; cbn; [naive_solver |].
      rewrite Htmp. cbn. naive_solver.
Qed.

Lemma fetchPackage_hit (env : Env) (io : IO) (update : IUpdate) (s : Service)
  (dir : string) :
  cachePath env = Resolved dir ->
  is_Some (files s !! Path.join dir (updatePackageName env (version update))) ->
  fetchPackage env io update s
  = (s, Resolved (Path.join dir (updatePackageName env (version update)))).
Proof.
  intros Hdir Hcached.
  pose proof (fetchPackage_run env io update s dir Hdir) as Hrun. cbv zeta in Hrun.
  destruct (fetchPackage env io update s) as [s' [p|e]].
  - destruct Hrun as [-> [[_ ->] | [Hnone _]]]; [auto |].
    rewrite Hnone in Hcached. now destruct Hcached.
  - destruct Hrun as [Hnone _]. rewrite Hnone in Hcached. now destruct Hcached.
Qed.

(** Once the download step has succeeded, running it again finds the package
    in the cache, whatever the network would do. *)
Lemma fetchPackage_twice (env : Env) (io io' : IO) (update : IUpdate) (s s' : Service)
  (p : string) :
  fetchPackage env io update s = (s', Resolved p) ->
  fetchPackage env io' update s' = (s', Resolved p).
Proof.
  intros Hfirst.
  destruct (cachePath env) as [dir|e] eqn:Hdir.
  - pose proof (fetchPackage_run env io update s dir Hdir) as Hrun. cbv zeta in Hrun.
    rewrite Hfirst in Hrun. destruct Hrun as [-> Hrun].
    apply fetchPackage_hit; [assumption |].
    destruct Hrun as [[Hc ->] | (_ & _ & _ & _ & _ & ->)]; [assumption |].
    cbn [files with_files]. rewrite lookup_insert_eq. eauto.
  - unfold fetchPackage, getUpdatePackagePath in Hfirst. task_unfold.
    rewrite Hdir in Hfirst. discriminate.
Qed.

(** C4. When the package of the update's version is already at its place in
    the cache, the download step resolves with that path and leaves the
    service as it was: no request is issued and no file is written. *)
Theorem fetchPackage_cached (env : Env) (io : IO) (update : IUpdate) (s : Service)
  (dir : string) :
  cachePath env = Resolved dir ->
  is_Some (files s !! Path.join dir (updatePackageName env (version update))) ->
  fetchPackage env io update s
  = (s, Resolved (Path.join dir (updatePackageName env (version update))))
  /\ requests (fst (fetchPackage env io update s)) = requests s.
Proof.
  intros Hdir Hcached. rewrite (fetchPackage_hit env io update s dir Hdir Hcached). auto.
Qed.

Lemma fetchPackage_cached_witness :
  is_Some (files (Example.service "user" [("CodeSetup-stable-3.exe", "body")])
           !! Path.join Example.dir (updatePackageName (Example.env "user") "3")) /\
  requests (fst (fetchPackage (Example.env "user") (Example.io "other" true)
                   (Example.update "3" (Some "sha1:body") true)
                   (Example.service "user" [("CodeSetup-stable-3.exe", "body")])))
  = requests (Example.service "user" [("CodeSetup-stable-3.exe", "body")]).
Proof.
  assert (H : is_Some (files (Example.service "user" [("CodeSetup-stable-3.exe", "body")])
                       !! Path.join Example.dir (updatePackageName (Example.env "user") "3")))
    by (vm_compute; eauto).
  split; [exact H |].
  exact (proj2 (fetchPackage_cached (Example.env "user") (Example.io "other" true)
                  (Example.update "3" (Some "sha1:body") true)
                  (Example.service "user" [("CodeSetup-stable-3.exe", "body")])
                  Example.dir eq_refl H)).
Defined.

(** ** The check cycle *)

#[local] Arguments cleanup : simpl never.
#[local] Arguments fetchPackage : simpl never.
#[local] Arguments packageReady : simpl never.
#[local] Arguments checkFailed : simpl never.
#[local] Arguments doApplyUpdate : simpl never.

Lemma doApplyUpdate_frame (env : Env) (s : Service) :
  files (fst (doApplyUpdate env s)) = files s
  /\ telemetry (fst (doApplyUpdate env s)) = telemetry s
  /\ spawned (fst (doApplyUpdate env s)) = spawned s
  /\ requests (fst (doApplyUpdate env s)) = requests s.
Proof.
  unfold doApplyUpdate, setState. task_unfold.
  destruct (is_downloaded_or_downloading (state s)); [| auto].
  destruct (availableUpdate s); [| auto]. cbn.
  destruct (cachePath env); cbn; auto.
Qed.

Lemma packageReady_resolves (env : Env) (io : IO) (update : IUpdate) (p : string)
  (s : Service) :
  snd (packageReady env io update p s) = Resolved tt.
Proof.
  unfold packageReady, setState. task_unfold. cbn.
  destruct (fastUpdatesEnabled io && supportsFastUpdate update); [| reflexivity].
  destruct (String.eqb (product_target env) "user"); reflexivity.
Qed.

Lemma packageReady_frame (env : Env) (io : IO) (update : IUpdate) (p : string)
  (s : Service) :
  files (fst (packageReady env io update p s)) = files s
  /\ telemetry (fst (packageReady env io update p s)) = telemetry s
  /\ spawned (fst (packageReady env io update p s)) = spawned s
  /\ requests (fst (packageReady env io update p s)) = requests s.
Proof.
  unfold packageReady, setState. task_unfold. cbn.
  destruct (fastUpdatesEnabled io && supportsFastUpdate update); [| auto].
  destruct (String.eqb (product_target env) "user"); [| auto].
  apply (doApplyUpdate_frame env
           (with_availableUpdate (Some {| packagePath := p; updateFilePath := None |}) s)).
Qed.

Lemma checkFailed_run (env : Env) (context : any) (e : Err) (s : Service) :
  snd (checkFailed env context e s) = Resolved tt
  /\ state (fst (checkFailed env context e s))
     = Idle (updateType env) (Some (message_or_self e))
  /\ telemetry (fst (checkFailed env context e s))
     = {| eventName := "update:notAvailable"; explicit := truthy context |} :: telemetry s
  /\ files (fst (checkFailed env context e s)) = files s
  /\ availableUpdate (fst (checkFailed env context e s)) = availableUpdate s
  /\ announced (fst (checkFailed env context e s))
     = Idle (updateType env) (Some (message_or_self e)) :: announced s
  /\ errorLog (fst (checkFailed env context e s)) = e :: errorLog s.
Proof. repeat split. Qed.

(** The service once a check has begun: [CheckingForUpdates] is announced
    and the feed is requested. *)
Lemma doCheckForUpdates_unfold (env : Env) (feed : Result (option IUpdate)) (io : IO)
  (context : any) (s : Service) (feedUrl' : string) :
  feedUrl env = Some feedUrl' -> truthy_string feedUrl' = true ->
  doCheckForUpdates env feed io context s =
  let s0 := with_requests (feedUrl' :: requests s)
              (fst (setState (CheckingForUpdates context) s)) in
  match feed with
  | Rejected e => checkFailed env context e s0
  | Resolved update =>
      match usable update with
      | None =>
          (publicLog "update:notAvailable" (truthy context) ;;;
           setState (Idle (updateType env) None)) s0
      | Some u =>
          match updateType env with
          | Archive => setState (AvailableForDownload u) s0
          | Setup =>
              match cleanup env io (version u) (fst (setState (Downloading u) s0)) with
              | (s2, Rejected e) => checkFailed env context e s2
              | (s2, Resolved _) =>
                  match fetchPackage env io u s2 with
                  | (s3, Rejected e) => checkFailed env context e s3
                  | (s3, Resolved p) => (fst (packageReady env io u p s3), Resolved tt)
                  end
              end
          end
      end
  end.
Proof.
  intros Hurl Htruthy. unfold doCheckForUpdates. rewrite Hurl, Htruthy.
  unfold checkChain, request, feedParsed, acquire. task_unfold. cbn.
  destruct feed as [update|e]; cbn; [| reflexivity].
  destruct (usable update) as [u|]; cbn; [| reflexivity].
  destruct (updateType env); cbn; [| reflexivity].
  destruct (cleanup env io (version u) _) as [s2 [[]|e]]; [| reflexivity].
  destruct (fetchPackage env io u s2) as [s3 [p|e]]; [| reflexivity].
  pose proof (packageReady_resolves env io u p s3) as Hr.
  destruct (packageReady env io u p s3) as [s4 r]. cbn in *. now rewrite Hr.
Qed.




Lemma cleanup_eq (env : Env) (io : IO) (exceptVersion : string) (s : Service) :
  cleanup env io exceptVersion s =
  match cachePath env with
  | Rejected e => (s, Rejected e)
  | Resolved dir =>
      match readdir_error io with
      | Some e => (s, Rejected e)
      | None =>
          match filter_result (cleanupFilter env exceptVersion) (Pfs.entries dir (files s)) with
          | Rejected e => (s, Rejected e)
          | Resolved stale => (with_files (unlinkAll io dir stale (files s)) s, Resolved tt)
          end
      end
  end.
Proof.
  unfold cleanup, Pfs.readdir, Task.bind, Task.lift, Task.get, Task.reject.
  destruct (cachePath env) as [dir|e]; cbn; [| reflexivity].
  destruct (readdir_error io); cbn; [reflexivity |].
  destruct (filter_result _ _) as [stale|e]; cbn; [| reflexivity].
  now rewrite join_unlinks.
Qed.

(** The janitor looks at the files only, and only removes files. *)
Lemma cleanup_files (env : Env) (io : IO) (exceptVersion : string) (s1 s : Service) :
  files s1 = files s ->
  snd (cleanup env io exceptVersion s1) = snd (cleanup env io exceptVersion s)
  /\ forall p, files s !! p = None ->
               files (fst (cleanup env io exceptVersion s1)) !! p = None.
Proof.
  intros Hfiles. rewrite !cleanup_eq, Hfiles.
  destruct (cachePath env) as [dir|e]; cbn; [| rewrite Hfiles; auto].
  destruct (readdir_error io); cbn; [rewrite Hfiles; auto |].
  destruct (filter_result _ _) as [stale|e]; cbn; [| rewrite Hfiles; auto].
  split; [reflexivity |]. intros p Hp.
  destruct (unlinkAll io dir stale (files s) !! p) as [c|] eqn:Hc; [| reflexivity].
  apply unlinkAll_lookup in Hc as [Hc _]. congruence.
Qed.

(** How the download step fails when the package is not in the cache. *)
Lemma fetchPackage_fails (env : Env) (io : IO) (u : IUpdate) (s : Service) (dir : string) :
  cachePath env = Resolved dir ->
  files s !! Path.join dir (updatePackageName env (version u)) = None ->
  (forall e, request_error io = Some e -> snd (fetchPackage env io u s) = Rejected e)
  /\ (forall e, request_error io = None -> download_error io = Some e ->
                snd (fetchPackage env io u s) = Rejected e)
  /\ (request_error io = None -> download_error io = None ->
      truthy_opt (hash u) = true ->
      Some (sha1 env (download_written io)) <> hash u ->
      snd (fetchPackage env io u s) = Rejected hash_mismatch).
Proof.
  intros Hdir Hnone.
  pose proof (fetchPackage_run env io u s dir Hdir) as Hrun. cbv zeta in Hrun.
  destruct (fetchPackage env io u s) as [s' [p|e']]; cbn [snd].
  - destruct Hrun as [_ [[[c Hc] _] | (_ & Hrq & Hdl & _ & Hver & _)]]; [congruence |].
    split_and!; intros; try congruence. exfalso. auto.
  - destruct Hrun as [_ [[Hrq _] | (Hrq & _ & [Hdl | [(Hdl & _ & _ & ->) | (Hdl & Hrn & Hver)]])]];
      split_and!; intros; try congruence. exfalso. auto.
Qed.

Lemma checkChain_unfold (env : Env) (feedUrl' : string) (feed : Result (option IUpdate))
  (io : IO) (context : any) (s : Service) :
  checkChain env feedUrl' feed io context s =
  let s0 := with_requests (feedUrl' :: requests s) s in
  match feed with
  | Rejected e => (s0, Rejected e)
  | Resolved update =>
      match usable update with
      | None =>
          (publicLog "update:notAvailable" (truthy context) ;;;
           setState (Idle (updateType env) None)) s0
      | Some u =>
          match updateType env with
          | Archive => setState (AvailableForDownload u) s0
          | Setup =>
              match cleanup env io (version u) (fst (setState (Downloading u) s0)) with
              | (s2, Rejected e) => (s2, Rejected e)
              | (s2, Resolved _) =>
                  match fetchPackage env io u s2 with
                  | (s3, Rejected e) => (s3, Rejected e)
                  | (s3, Resolved p) => (fst (packageReady env io u p s3), Resolved tt)
                  end
              end
          end
      end
  end.
Proof.
  unfold checkChain, request, feedParsed, acquire. task_unfold. cbn.
  destruct feed as [update|e]; cbn; [| reflexivity].
  destruct (usable update) as [u|]; cbn; [| reflexivity].
  destruct (updateType env); cbn; [| reflexivity].
  destruct (cleanup env io (version u) _) as [s2 [[]|e]]; [| reflexivity].
  destruct (fetchPackage env io u s2) as [s3 [p|e]]; [| reflexivity].
  pose proof (packageReady_resolves env io u p s3) as Hr.
  destruct (packageReady env io u p s3) as [s4 r]. cbn in *. now rewrite Hr.
Qed.

Lemma doCheckForUpdates_catch (env : Env) (feed : Result (option IUpdate)) (io : IO)
  (context : any) (s : Service) (feedUrl' : string) :
  feedUrl env = Some feedUrl' -> truthy_string feedUrl' = true ->
  doCheckForUpdates env feed io context s =
  match checkChain env feedUrl' feed io context
          (fst (setState (CheckingForUpdates context) s)) with
  | (s1, Resolved _) => (s1, Resolved tt)
  | (s1, Rejected e) => checkFailed env context e s1
  end.
Proof.
  intros Hurl Htruthy. unfold doCheckForUpdates. rewrite Hurl, Htruthy.
  unfold Task.bind, Task.catch, setState, Task.modify. cbn [fst snd].
  destruct (checkChain env feedUrl' feed io context _) as [s1 [[]|e]]; reflexivity.
Qed.

(** The state a cycle ends in when its download step is rejected. *)
Lemma download_failure_ends_Idle (env : Env) (io : IO) (context : any) (s : Service)
  (feedUrl' dir : string) (u : IUpdate) (e : Err) :
  feedUrl env = Some feedUrl' -> truthy_string feedUrl' = true ->
  usable (Some u) = Some u -> updateType env = Setup ->
  cachePath env = Resolved dir ->
  snd (cleanup env io (version u) s) = Resolved tt ->
  files s !! Path.join dir (updatePackageName env (version u)) = None ->
  (forall s2,
      files s2 !! Path.join dir (updatePackageName env (version u)) = None ->
      snd (fetchPackage env io u s2) = Rejected e) ->
  state (fst (doCheckForUpdates env (Resolved (Some u)) io context s))
  = Idle (updateType env) (Some (message_or_self e)).
Proof.
  intros Hurl Htruthy Hu Hsetup Hdir Hclean Hnone Hfetch.
  rewrite (doCheckForUpdates_unfold env _ io context s feedUrl' Hurl Htruthy).
  cbv zeta. rewrite Hu, Hsetup.
  match goal with |- context [cleanup env io (version u) ?x] => set (s1 := x) end.
  destruct (cleanup_files env io (version u) s1 s eq_refl) as [Hsame Hgone].
  rewrite Hclean in Hsame. specialize (Hgone _ Hnone).
  destruct (cleanup env io (version u) s1) as [s2 r]. cbn [fst snd] in *. subst r.
  specialize (Hfetch s2 Hgone).
  destruct (fetchPackage env io u s2) as [s3 r]. cbn [snd] in Hfetch. subst r.
  destruct (checkFailed_run env context e s3) as (_ & -> & _). now rewrite Hsetup.
Qed.

(** C5. The chain of a check is never rejected. Whatever error [e] its
    steps raise, the service ends in [Idle] carrying [e.message || e], which
    is the error's text when it has one. This is so for a feed request or
    parse that fails and, once the janitor has run and the package is not
    in the cache, for a package request that fails, a download that fails
    and a checksum that differs. *)
Theorem check_failure_ends_Idle (env : Env) (feed : Result (option IUpdate)) (io : IO)
  (context : any) (s : Service) (feedUrl' : string) :
  feedUrl env = Some feedUrl' -> truthy_string feedUrl' = true ->
  snd (doCheckForUpdates env feed io context s) = Resolved tt
  /\ (forall s1 e,
         checkChain env feedUrl' feed io context
           (fst (setState (CheckingForUpdates context) s)) = (s1, Rejected e) ->
         state (fst (doCheckForUpdates env feed io context s))
         = Idle (updateType env) (Some (message_or_self e))
         /\ (truthy_string (text e) = true -> message_or_self e = Str (text e)))
  /\ (forall e,
         feed = Rejected e ->
         state (fst (doCheckForUpdates env feed io context s))
         = Idle (updateType env) (Some (message_or_self e)))
  /\ (forall u dir,
         feed = Resolved (Some u) ->
         usable (Some u) = Some u -> updateType env = Setup ->
         cachePath env = Resolved dir ->
         snd (cleanup env io (version u) s) = Resolved tt ->
         files s !! Path.join dir (updatePackageName env (version u)) = None ->
         (forall e,
             request_error io = Some e ->
             state (fst (doCheckForUpdates env feed io context s))
             = Idle (updateType env) (Some (message_or_self e)))
         /\ (forall e,
                request_error io = None -> download_error io = Some e ->
                state (fst (doCheckForUpdates env feed io context s))
                = Idle (updateType env) (Some (message_or_self e)))
         /\ (request_error io = None -> download_error io = None ->
             truthy_opt (hash u) = true ->
             Some (sha1 env (download_written io)) <> hash u ->
             state (fst (doCheckForUpdates env feed io context s))
             = Idle (updateType env) (Some (Str "Hash mismatch")))).
Proof.
  intros Hurl Htruthy.
  pose proof (doCheckForUpdates_catch env feed io context s feedUrl' Hurl Htruthy) as Hcatch.
  split_and!.
  - rewrite Hcatch. destruct (checkChain _ _ _ _ _ _) as [s1 [[]|e]]; reflexivity.
  - intros s1 e Hchain. rewrite Hcatch, Hchain. split; [reflexivity |].
    destruct e as [m|m]; cbn; [| reflexivity]. now intros ->.
  - intros e ->. rewrite Hcatch, checkChain_unfold. reflexivity.
  - intros u dir -> Hu Hsetup Hdir Hclean Hnone. split_and!.
    + intros e He.
      apply (download_failure_ends_Idle env io context s feedUrl' dir u e); try assumption.
      intros s2 Hs2. destruct (fetchPackage_fails env io u s2 dir Hdir Hs2) as (H1 & _). auto.
    + intros e Hrq He.
      apply (download_failure_ends_Idle env io context s feedUrl' dir u e); try assumption.
      intros s2 Hs2. destruct (fetchPackage_fails env io u s2 dir Hdir Hs2) as (_ & H2 & _).
      auto.
    + intros Hrq Hdl Hh Hdiff.
      apply (download_failure_ends_Idle env io context s feedUrl' dir u hash_mismatch);
        try assumption.
      intros s2 Hs2. destruct (fetchPackage_fails env io u s2 dir Hdir Hs2) as (_ & _ & H3).
      auto.
Qed.

Lemma check_failure_ends_Idle_witness :
  truthy_string "https://update.example/api/update/win32-x64/stable/abc" = true /\
  state (fst (doCheckForUpdates (Example.env "user")
                (Resolved (Some (Example.update "2.0.0" (Some "abc123") false)))
                (Example.io "body" false) (boolean false) (Example.service "user" [])))
  = Idle Setup (Some (Str "Hash mismatch")).
Proof.
  split; [reflexivity |].
  refine (proj2 (proj2 (proj2 (proj2 (proj2
            (check_failure_ends_Idle (Example.env "user")
               (Resolved (Some (Example.update "2.0.0" (Some "abc123") false)))
               (Example.io "body" false) (boolean false) (Example.service "user" [])
               _ eq_refl eq_refl)))
            (Example.update "2.0.0" (Some "abc123") false) Example.dir
            eq_refl eq_refl eq_refl eq_refl _ _)) eq_refl eq_refl eq_refl _).
  - vm_compute. reflexivity.
  - vm_compute. reflexivity.
  - discriminate.
Defined.

(** ** Janitor and download step leave the controller alone *)

Lemma same_control_refl (s : Service) : same_control s s.
Proof. unfold same_control. auto 15. Qed.

Lemma same_control_trans (s1 s2 s3 : Service) :
  same_control s1 s2 -> same_control s2 s3 -> same_control s1 s3.
Proof. unfold same_control. intuition congruence. Qed.

Lemma io_only_ret {A} (a : A) : io_only (Task.ret a).
Proof. intros s. apply same_control_refl. Qed.

Lemma io_only_lift {A} (r : Result A) : io_only (Task.lift r).
Proof. intros s. apply same_control_refl. Qed.

Lemma io_only_reject {A} (e : Err) : io_only (@Task.reject Service A e).
Proof. intros s. apply same_control_refl. Qed.

Lemma io_only_get : io_only (@Task.get Service).
Proof. intros s. apply same_control_refl. Qed.

Lemma io_only_files (f : Service -> gmap string string) :
  io_only (Task.modify (fun s => with_files (f s) s)).
Proof. intros s. cbn. unfold same_control. auto 15. Qed.

Lemma io_only_requests (f : Service -> list string) :
  io_only (Task.modify (fun s => with_requests (f s) s)).
Proof. intros s. cbn. unfold same_control. auto 15. Qed.

Lemma io_only_bind {A B} (p : TPromise A) (k : A -> TPromise B) :
  io_only p -> (forall a, io_only (k a)) -> io_only (Task.bind p k).
Proof.
  intros Hp Hk s. unfold Task.bind. specialize (Hp s).
  destruct (p s) as [s' [a|e]]; cbn in *; [| assumption].
  eapply same_control_trans; [exact Hp | apply Hk].
Qed.

Lemma io_only_catch {A} (p : TPromise A) (h : Err -> TPromise A) :
  io_only p -> (forall e, io_only (h e)) -> io_only (Task.catch p h).
Proof.
  intros Hp Hh s. unfold Task.catch. specialize (Hp s).
  destruct (p s) as [s' [a|e]]; cbn in *; [assumption |].
  eapply same_control_trans; [exact Hp | apply Hh].
Qed.

Lemma io_only_join {A} (ps : list (TPromise A)) :
  Forall io_only ps -> io_only (Task.join ps).
Proof.
  induction 1 as [|p ps Hp _ IH]; [apply io_only_ret |].
  intros s. cbn. specialize (Hp s). destruct (p s) as [s' r]. cbn in Hp.
  specialize (IH s'). destruct (Task.join ps s') as [s'' [xs|e']]; destruct r; cbn in *;
    eapply same_control_trans; eauto.
Qed.

Create HintDb io_only discriminated.
#[local] Hint Resolve io_only_ret io_only_lift io_only_reject io_only_get io_only_files
  io_only_requests : io_only.
#[local] Hint Extern 2 (io_only (Task.bind _ _)) => apply io_only_bind; [| intros ?] : io_only.
#[local] Hint Extern 2 (io_only (Task.catch _ _)) => apply io_only_catch; [| intros ?] : io_only.
#[local] Hint Extern 3 (io_only (match ?x with _ => _ end)) => destruct x : io_only.
#[local] Hint Extern 3 (io_only (if ?x then _ else _)) => destruct x : io_only.

Lemma cleanup_io_only (env : Env) (io : IO) (exceptVersion : string) :
  io_only (cleanup env io exceptVersion).
Proof.
  unfold cleanup, Pfs.readdir.
  apply io_only_bind; [auto with io_only | intros dir].
  apply io_only_bind; [auto 10 with io_only | intros all].
  apply io_only_bind; [auto with io_only | intros stale].
  apply io_only_bind; [| auto with io_only].
  apply io_only_join.
  induction stale as [|one stale IH]; cbn; constructor; [| exact IH].
  unfold Pfs.unlink. auto 10 with io_only.
Qed.

Lemma fetchPackage_io_only (env : Env) (io : IO) (update : IUpdate) :
  io_only (fetchPackage env io update).
Proof.
  unfold fetchPackage, getUpdatePackagePath, Pfs.exists_, request, download, checksum,
    Pfs.rename.
  auto 20 with io_only.
Qed.

(** ** Telemetry *)

(** The chain of a check before its last handler: what it does to the
    telemetry log. *)
Lemma checkChain_telemetry (env : Env) (feedUrl' : string) (feed : Result (option IUpdate))
  (io : IO) (context : any) (s : Service) :
  telemetry (fst (checkChain env feedUrl' feed io context s)) =
  match feed with
  | Resolved update =>
      match usable update with
      | None => {| eventName := "update:notAvailable"; explicit := truthy context |}
                  :: telemetry s
      | Some _ => telemetry s
      end
  | Rejected _ => telemetry s
  end.
Proof.
  rewrite checkChain_unfold. cbv zeta.
  destruct feed as [update|e]; [| reflexivity].
  destruct (usable update) as [u|]; [| reflexivity].
  destruct (updateType env); [| reflexivity].
  match goal with |- context [cleanup env io (version u) ?x] => set (s1 := x) end.
  assert (Hs1 : telemetry s1 = telemetry s) by reflexivity.
  pose proof (cleanup_io_only env io (version u) s1) as Hclean.
  clearbody s1.
  destruct (cleanup env io (version u) s1) as [s2 [[]|e]]; cbn [fst] in *.
  - pose proof (fetchPackage_io_only env io u s2) as Hfetch.
    destruct (fetchPackage env io u s2) as [s3 [p|e]]; cbn [fst] in *.
    + destruct (packageReady_frame env io u p s3) as (_ & -> & _).
      unfold same_control in *. intuition congruence.
    + unfold same_control in *. intuition congruence.
  - unfold same_control in *. intuition congruence.
Qed.

(** C8 (amended). A check that finds no update, and a check that fails,
    each emit one [update:notAvailable] event whose [explicit] flag is
    [!!context]. A check that finds an update and neither fails in the
    janitor nor in the download emits no event. *)
Theorem telemetry_of_check (env : Env) (feed : Result (option IUpdate)) (io : IO)
  (context : any) (s : Service) (feedUrl' : string) :
  feedUrl env = Some feedUrl' -> truthy_string feedUrl' = true ->
  (forall update,
      feed = Resolved update -> usable update = None ->
      telemetry (fst (doCheckForUpdates env feed io context s))
      = {| eventName := "update:notAvailable"; explicit := truthy context |} :: telemetry s)
  /\ (forall s1 e,
         checkChain env feedUrl' feed io context
           (fst (setState (CheckingForUpdates context) s)) = (s1, Rejected e) ->
         telemetry (fst (doCheckForUpdates env feed io context s))
         = {| eventName := "update:notAvailable"; explicit := truthy context |} :: telemetry s)
  /\ (forall s1 u,
         feed = Resolved (Some u) -> usable (Some u) = Some u ->
         checkChain env feedUrl' feed io context
           (fst (setState (CheckingForUpdates context) s)) = (s1, Resolved tt) ->
         telemetry (fst (doCheckForUpdates env feed io context s)) = telemetry s).
Proof.
  intros Hurl Htruthy.
  pose proof (doCheckForUpdates_catch env feed io context s feedUrl' Hurl Htruthy) as Hcatch.
  pose proof (checkChain_telemetry env feedUrl' feed io context
                (fst (setState (CheckingForUpdates context) s))) as Htel.
  split_and!.
  - intros update -> Hnone. rewrite Hnone in Htel. rewrite Hcatch.
    destruct (checkChain _ _ _ _ _ _) as [s1 [[]|e]] eqn:Hchain; cbn [fst] in *; [exact Htel |].
    rewrite checkChain_unfold in Hchain. cbv zeta in Hchain. rewrite Hnone in Hchain.
    discriminate Hchain.
  - intros s1 e Hchain. rewrite Hcatch, Hchain. rewrite Hchain in Htel. cbn [fst] in Htel.
    destruct (checkFailed_run env context e s1) as (_ & _ & -> & _). f_equal.
    rewrite Htel. destruct feed as [update|e']; [| reflexivity].
    destruct (usable update) eqn:Hu; [reflexivity |].
    rewrite checkChain_unfold in Hchain. cbv zeta in Hchain. rewrite Hu in Hchain.
    discriminate Hchain.
  - intros s1 u -> Hu Hchain. rewrite Hcatch, Hchain. rewrite Hchain, Hu in Htel.
    exact Htel.
Qed.

Lemma telemetry_of_check_witness :
  truthy_string "https://update.example/api/update/win32-x64/stable/abc" = true /\
  telemetry (fst (doCheckForUpdates (Example.env "user") (Resolved None)
                    (Example.io "" false) (boolean false) (Example.service "user" [])))
  = [{| eventName := "update:notAvailable"; explicit := false |}].
Proof.
  split; [reflexivity |].
  exact (proj1 (telemetry_of_check (Example.env "user") (Resolved None)
                  (Example.io "" false) (boolean false) (Example.service "user" [])
                  _ eq_refl eq_refl) None eq_refl eq_refl).
Defined.

(** C8 (as stated) fails: a cycle that finds an update, downloads it and
    ends in [Ready] emits no telemetry event at all. *)
Lemma downloaded_without_telemetry :
  state (fst (doCheckForUpdates (Example.env "user")
                (Resolved (Some (Example.update "3" None false)))
                (Example.io "body" false) (boolean true) (Example.service "user" [])))
  = Ready (Example.update "3" None false)
  /\ files (fst (doCheckForUpdates (Example.env "user")
                   (Resolved (Some (Example.update "3" None false)))
                   (Example.io "body" false) (boolean true) (Example.service "user" [])))
       !! Path.join Example.dir "CodeSetup-stable-3.exe" = Some "body"
  /\ telemetry (fst (doCheckForUpdates (Example.env "user")
                       (Resolved (Some (Example.update "3" None false)))
                       (Example.io "body" false) (boolean true) (Example.service "user" [])))
     = [].
Proof. vm_compute. auto. Qed.

(** ** Applying an update *)

Lemma doApplyUpdate_noop (env : Env) (s : Service) :
  is_downloaded_or_downloading (state s) = None \/ availableUpdate s = None ->
  doApplyUpdate env s = (s, Resolved tt).
Proof.
  unfold doApplyUpdate. task_unfold.
  destruct (is_downloaded_or_downloading (state s)); [| reflexivity].
  intros [H | ->]; [discriminate | reflexivity].
Qed.

Lemma doApplyUpdate_applies (env : Env) (s : Service) (u : IUpdate) (a : IAvailableUpdate)
  (dir : string) :
  is_downloaded_or_downloading (state s) = Some u ->
  availableUpdate s = Some a ->
  cachePath env = Resolved dir ->
  doApplyUpdate env s =
  (with_markers (markers s ++ [(u, Path.join dir (updateFlagName env (version u)))])
     (with_availableUpdate
        (Some {| packagePath := packagePath a;
                 updateFilePath := Some (Path.join dir (updateFlagName env (version u))) |})
        (fst (setState (Updating u) s))),
   Resolved tt).
Proof.
  intros Hs Ha Hdir. unfold doApplyUpdate. task_unfold. now rewrite Hs, Ha, Hdir.
Qed.

Lemma packageReady_eq (env : Env) (io : IO) (u : IUpdate) (p : string) (s : Service) :
  packageReady env io u p s =
  let s1 := with_availableUpdate (Some {| packagePath := p; updateFilePath := None |}) s in
  if fastUpdatesEnabled io && supportsFastUpdate u then
    if String.eqb (product_target env) "user" then (fst (doApplyUpdate env s1), Resolved tt)
    else setState (Downloaded u) s1
  else setState (Ready u) s1.
Proof.
  unfold packageReady. task_unfold. cbn.
  destruct (fastUpdatesEnabled io && supportsFastUpdate u); [| reflexivity].
  destruct (String.eqb (product_target env) "user"); reflexivity.
Qed.




(** ** The installer's exit *)

Ltac break_match :=
  match goal with
  | |- context [match ?x with _ => _ end] =>
      lazymatch x with
      | context [match _ with _ => _ end] => fail
      | _ => destruct x eqn:?
      end
  end.

(** Nothing but the end of a download records an available update. *)
Lemma step_keeps_no_update (env : Env) (s : Service) (e : Event) :
  is_acquisition e = false ->
  availableUpdate s = None ->
  availableUpdate (step env s e) = None.
Proof.
  intros He Hs. unfold step.
  destruct e; try discriminate He; cbn [handle].
  - unfold checkForUpdates, checkStarted, setState. task_unfold.
    repeat (cbn; try break_match); assumption.
  - unfold feedSettled, feedParsed, checkFailed, setState, publicLog, logError. task_unfold.
    repeat (cbn; try break_match); assumption.
  - now rewrite doApplyUpdate_noop by auto.
  - unfold markerSettled, markerWritten, Pfs.writeFile. task_unfold.
    repeat (cbn; try break_match); try assumption; cbn in *; congruence.
  - unfold installerExit, installerExited, setState. task_unfold.
    repeat (cbn; try break_match); try assumption; reflexivity.
  - unfold pollAttempt, setState. task_unfold.
    repeat (cbn; try break_match); assumption.
  - unfold doQuitAndInstall. task_unfold. rewrite Hs.
    repeat (cbn; try break_match); assumption.
  - unfold downloadUpdate, doDownloadUpdate, setState. task_unfold.
    repeat (cbn; try break_match); assumption.
Qed.

Lemma run_keeps_no_update (env : Env) (trace : list Event) (s : Service) :
  forallb (fun e => negb (is_acquisition e)) trace = true ->
  availableUpdate s = None ->
  availableUpdate (run env s trace) = None.
Proof.
  revert s. induction trace as [|e trace IH]; intros s Ht Hs; [exact Hs |].
  cbn in Ht. apply andb_prop in Ht as [He Ht]. apply negb_true_iff in He.
  cbn. apply IH; [assumption |]. now apply step_keeps_no_update.
Qed.

(** C7. The exit observer of the installer makes the service [Idle] and
    empties the available-update record. From then on, and until another
    download has completed, [doApplyUpdate] is a no-op: the service is left
    as it is, so nothing is written and nothing spawned. *)
Theorem installer_exit_then_apply (env : Env) (s : Service) (trace : list Event) :
  forallb (fun e => negb (is_acquisition e)) trace = true ->
  state (fst (installerExited env s)) = Idle (updateType env) None
  /\ availableUpdate (fst (installerExited env s)) = None
  /\ doApplyUpdate env (fst (installerExited env s))
     = (fst (installerExited env s), Resolved tt)
  /\ doApplyUpdate env (run env (fst (installerExited env s)) trace)
     = (run env (fst (installerExited env s)) trace, Resolved tt).
Proof.
  intros Htrace. split_and!; try reflexivity.
  apply doApplyUpdate_noop. right.
  now apply run_keeps_no_update.
Qed.

Lemma installer_exit_then_apply_witness :
  forallb (fun e => negb (is_acquisition e)) [PollAttempt 0 false; ApplyUpdate; QuitAndInstall]
  = true /\
  doApplyUpdate (Example.env "user")
    (run (Example.env "user")
       (fst (installerExited (Example.env "user")
               (run (Example.env "user") (Example.service "user" [])
                  [CheckForUpdates null;
                   FeedSettled (Resolved (Some (Example.update "3" None true)));
                   AcquisitionSettled (Example.io "body" true);
                   MarkerSettled None])))
       [PollAttempt 0 false; ApplyUpdate; QuitAndInstall])
  = (run (Example.env "user")
       (fst (installerExited (Example.env "user")
               (run (Example.env "user") (Example.service "user" [])
                  [CheckForUpdates null;
                   FeedSettled (Resolved (Some (Example.update "3" None true)));
                   AcquisitionSettled (Example.io "body" true);
                   MarkerSettled None])))
       [PollAttempt 0 false; ApplyUpdate; QuitAndInstall],
     Resolved tt).
Proof.
  split; [reflexivity |].
  exact (proj2 (proj2 (proj2
    (installer_exit_then_apply (Example.env "user")
       (run (Example.env "user") (Example.service "user" [])
          [CheckForUpdates null;
           FeedSettled (Resolved (Some (Example.update "3" None true)));
           AcquisitionSettled (Example.io "body" true);
           MarkerSettled None])
       [PollAttempt 0 false; ApplyUpdate; QuitAndInstall] eq_refl)))).
Defined.

(** ** The readiness poll *)

Lemma pollUntil_Some (fn : nat -> bool) (attempts a k : nat) :
  pollUntil fn a attempts = Some k <->
  a <= k < a + attempts /\ fn k = true /\ forall j, a <= j < k -> fn j = false.
Proof.
  revert a. induction attempts as [|n IH]; intros a; cbn [pollUntil].
  - split; [discriminate | lia].
  - destruct (fn a) eqn:Ha.
    + split.
      * intros [= <-]. split_and!; [lia | lia | assumption | lia].
      * intros (Hk & Hfk & Hbefore).
        destruct (decide (a = k)) as [-> | Hne]; [reflexivity |].
        rewrite (Hbefore a) in Ha by lia. discriminate.
    + rewrite IH. split.
      * intros (Hk & Hfk & Hbefore). split_and!; [lia | lia | assumption |].
        intros j Hj. destruct (decide (j = a)) as [-> | Hne]; [assumption |].
        apply Hbefore. lia.
      * intros (Hk & Hfk & Hbefore).
        assert (a <> k) by (intros ->; congruence).
        split_and!; [lia | lia | assumption |]. intros j Hj. apply Hbefore. lia.
Qed.

Lemma pollUntil_None (fn : nat -> bool) (attempts a : nat) :
  pollUntil fn a attempts = None <-> forall j, a <= j < a + attempts -> fn j = false.
Proof.
  revert a. induction attempts as [|n IH]; intros a; cbn [pollUntil].
  - split; [lia | reflexivity].
  - destruct (fn a) eqn:Ha.
    + split; [discriminate |]. intros H. rewrite (H a) in Ha by lia. discriminate.
    + rewrite IH. split.
      * intros H j Hj. destruct (decide (j = a)) as [-> | Hne]; [assumption |].
        apply H. lia.
      * intros H j Hj. apply H. lia.
Qed.

Lemma pollAttempt_inactive (i : nat) (s : Service) :
  pollAttempt i false s = (s, Resolved tt).
Proof. unfold pollAttempt. task_unfold. now destruct (polls s !! i). Qed.

Lemma installerExit_polls (env : Env) (s : Service) :
  polls (step env s InstallerExited) = polls s.
Proof.
  unfold step. cbn [handle]. unfold installerExit, installerExited, setState. task_unfold.
  now destruct (children s).
Qed.

Lemma pollAttempt_no_poll (env : Env) (s : Service) (i : nat) (active : bool) :
  polls s !! i = None -> step env s (PollAttempt i active) = s.
Proof.
  intros Hi. unfold step. cbn [handle]. unfold pollAttempt. task_unfold. now rewrite Hi.
Qed.

Lemma attempts_without_poll (env : Env) (s : Service) (observed : list bool) :
  polls s = [] ->
  run env s (map (PollAttempt 0) observed) = s.
Proof.
  intros Hs. induction observed as [|b observed IH]; [reflexivity |].
  cbn. rewrite pollAttempt_no_poll by now rewrite Hs. exact IH.
Qed.

(** The attempts of the service's one poll, reading the mutex as [fn] says,
    end as [pollUntil] says: the service is [Ready] once an attempt has found
    the mutex active, and is left alone as long as none has. *)
Lemma attempts_follow_pollUntil (env : Env) (s : Service) (u : IUpdate) (fn : nat -> bool)
  (a attempts : nat) :
  polls s = [u] ->
  run env s (map (fun k => PollAttempt 0 (fn k)) (seq a attempts)) =
  match pollUntil fn a attempts with
  | Some _ => step env s (PollAttempt 0 true)
  | None => s
  end.
Proof.
  intros Hs. revert a. induction attempts as [|n IH]; intros a; [reflexivity |].
  cbn [seq map pollUntil]. unfold run. cbn [fold_left]. fold (run env).
  destruct (fn a) eqn:Ha.
  - rewrite <- (map_map fn (PollAttempt 0)). apply attempts_without_poll.
    unfold step. cbn [handle]. unfold pollAttempt, setState. task_unfold.
    rewrite Hs. cbn. rewrite Hs. reflexivity.
  - unfold step at 2. cbn [handle]. rewrite pollAttempt_inactive. cbn [fst]. apply IH.
Qed.

(** C9 (amended). The readiness poll has no bound on its attempts: it
    completes at the first attempt that finds the mutex active, whichever
    attempt that is, and never when none does. In the service an attempt
    that finds the mutex inactive changes nothing, an attempt that finds it
    active ends the poll and makes the service [Ready], the attempts of a
    poll end as [pollUntil] says, and the exit of the installer leaves every
    poll running. *)
Theorem poll_runs_until_active :
  (forall fn attempts k,
      pollUntil fn 0 attempts = Some k <->
      k < attempts /\ fn k = true /\ forall j, j < k -> fn j = false)
  /\ (forall fn,
         (forall k, fn k = false) -> forall attempts, pollUntil fn 0 attempts = None)
  /\ (forall n, exists fn,
         pollUntil fn 0 n = None /\ pollUntil fn 0 (S n) = Some n)
  /\ (forall env s i, step env s (PollAttempt i false) = s)
  /\ (forall env s i u,
         polls s !! i = Some u ->
         state (step env s (PollAttempt i true)) = Ready u
         /\ polls (step env s (PollAttempt i true)) = delete i (polls s))
  /\ (forall env s u fn attempts,
         polls s = [u] ->
         run env s (map (fun k => PollAttempt 0 (fn k)) (seq 0 attempts)) =
         match pollUntil fn 0 attempts with
         | Some _ => step env s (PollAttempt 0 true)
         | None => s
         end)
  /\ (forall env s, polls (step env s InstallerExited) = polls s).
Proof.
  split_and!.
  - intros fn attempts k. rewrite pollUntil_Some. split.
    + intros (Hk & Hfk & Hbefore). split_and!; [lia | assumption |].
      intros j Hj. apply Hbefore. lia.
    + intros (Hk & Hfk & Hbefore). split_and!; [lia | lia | assumption |].
      intros j Hj. apply Hbefore. lia.
  - intros fn Hnever attempts. apply pollUntil_None. auto.
  - intros n. exists (fun k => Nat.eqb k n). split.
    + apply pollUntil_None. intros j Hj. apply Nat.eqb_neq. lia.
    + apply pollUntil_Some. split_and!; [lia | lia | apply Nat.eqb_refl |].
      intros j Hj. apply Nat.eqb_neq. lia.
  - intros env s i. unfold step. cbn [handle]. now rewrite pollAttempt_inactive.
  - intros env s i u Hi. unfold step. cbn [handle]. unfold pollAttempt, setState.
    task_unfold. now rewrite Hi.
  - intros env s u fn attempts Hs. now apply attempts_follow_pollUntil with (u := u).
  - intros env s. apply installerExit_polls.
Qed.

(** C9 (as stated) fails: the installer exits before it has signalled
    readiness, and the poll goes on; an attempt made after the exit finds
    the mutex active and makes the service [Ready]. *)
Lemma poll_outlives_installer :
  polls (run (Example.env "user") (Example.service "user" [])
           [CheckForUpdates null;
            FeedSettled (Resolved (Some (Example.update "3" None true)));
            AcquisitionSettled (Example.io "body" true);
            MarkerSettled None;
            PollAttempt 0 false;
            InstallerExited])
  = [Example.update "3" None true]
  /\ state (run (Example.env "user") (Example.service "user" [])
              [CheckForUpdates null;
               FeedSettled (Resolved (Some (Example.update "3" None true)));
               AcquisitionSettled (Example.io "body" true);
               MarkerSettled None;
               PollAttempt 0 false;
               InstallerExited;
               PollAttempt 0 false;
               PollAttempt 0 true])
     = Ready (Example.update "3" None true).
Proof. vm_compute. auto. Qed.

(** ** Entering [Ready] *)









(** ** Quit and install *)

(** C10. The installer exits before any attempt of the poll has found the
    mutex active, which empties the available-update record; the poll goes
    on, and an attempt that then finds the mutex active makes the service
    [Ready] with an empty record. [doQuitAndInstall] passes its guard and
    throws on reading the record. *)
Theorem Ready_with_empty_record :
  state (run (Example.env "user") (Example.service "user" [])
           [CheckForUpdates null;
            FeedSettled (Resolved (Some (Example.update "3" None true)));
            AcquisitionSettled (Example.io "body" true);
            MarkerSettled None;
            InstallerExited;
            PollAttempt 0 true])
  = Ready (Example.update "3" None true)
  /\ availableUpdate
       (run (Example.env "user") (Example.service "user" [])
          [CheckForUpdates null;
           FeedSettled (Resolved (Some (Example.update "3" None true)));
           AcquisitionSettled (Example.io "body" true);
           MarkerSettled None;
           InstallerExited;
           PollAttempt 0 true])
     = None
  /\ snd (doQuitAndInstall
            (run (Example.env "user") (Example.service "user" [])
               [CheckForUpdates null;
                FeedSettled (Resolved (Some (Example.update "3" None true)));
                AcquisitionSettled (Example.io "body" true);
                MarkerSettled None;
                InstallerExited;
                PollAttempt 0 true]))
     = Rejected TypeError.
Proof. vm_compute. auto. Qed.

(** Where the record is there, [doQuitAndInstall] does not throw on it:
    it removes the marker file of a fast update, or spawns the installer. *)
Lemma doQuitAndInstall_with_record (s : Service) (u : IUpdate) (a : IAvailableUpdate) :
  state s = Ready u -> availableUpdate s = Some a ->
  snd (doQuitAndInstall s) = Resolved tt
  \/ (exists flagPath,
        updateFilePath a = Some flagPath /\ files s !! flagPath = None
        /\ snd (doQuitAndInstall s) = Rejected Pfs.ENOENT).
Proof.
  intros Hs Ha. unfold doQuitAndInstall, Pfs.unlinkSync, spawn. task_unfold.
  rewrite Hs, Ha.
  destruct (supportsFastUpdate u); [| auto].
  destruct (updateFilePath a) as [flagPath|]; [| auto].
  destruct (truthy_string flagPath); [| auto]. cbn.
  destruct (files s !! flagPath) eqn:Hf; [auto |]. right. eauto.
Qed.

(** ** The chain and its steps *)

(** The whole chain of a check is what its three steps do one after the
    other when nothing comes in between. *)
Lemma chain_is_its_steps (env : Env) (feed : Result (option IUpdate)) (io : IO)
  (context : any) (s : Service) (t : UpdateType) (err : option Err) :
  state s = Idle t err -> feeds s = [] -> acquisitions s = [] ->
  run env s [CheckForUpdates context; FeedSettled feed; AcquisitionSettled io]
  = fst (doCheckForUpdates env feed io context s).
Proof.
  intros Hstate Hfeeds Hacq.
  destruct s as [st av fs an tel el rq sp op fd ac mk ch pl]. cbn in Hstate, Hfeeds, Hacq.
  subst st fd ac.
  unfold run, step. cbn [fold_left handle].
  unfold doCheckForUpdates, checkForUpdates, checkStarted, feedSettled, acquisitionSettled,
    checkChain, request, feedParsed, setState, publicLog.
  task_unfold. cbn.
  destruct (feedUrl env) as [feedUrl'|]; cbn; [| reflexivity].
  destruct (truthy_string feedUrl'); cbn; [| reflexivity].
  destruct feed as [update|e]; cbn; [| reflexivity].
  destruct (usable update) as [u|]; cbn; [| reflexivity].
  destruct (updateType env); cbn; [| reflexivity].
  destruct (acquire env io u _) as [s' [[]|e]]; reflexivity.
Qed.

(** * Further properties *)

(** ** Update type, feed platform and cache directory *)

Lemma getUpdateType_calls_cached (uninstaller : list bool) (t : UpdateType) :
  getUpdateType_calls uninstaller (Some t) = repeat t (length uninstaller).
Proof.
  induction uninstaller as [|probe rest IH]; [reflexivity |].
  cbn. now rewrite IH.
Qed.

(** X1. Whatever the file system answers later, every call of
    [getUpdateType()] returns what the first call returned: the update type
    is settled by the first probe for [unins000.exe], or by the value already
    kept. *)
Theorem getUpdateType_settled (probe : bool) (later : list bool)
  (_updateType : option UpdateType) :
  getUpdateType_calls (probe :: later) _updateType
  = repeat (snd (getUpdateType probe _updateType)) (S (length later))
  /\ (_updateType = None ->
      snd (getUpdateType probe _updateType) = if probe then Setup else Archive).
Proof.
  split.
  - cbn [getUpdateType_calls]. destruct _updateType as [t|]; cbn;
      now rewrite getUpdateType_calls_cached.
  - now intros ->.
Qed.

(** X2. The platform of the feed URL tells installations apart: two
    installations get the same platform exactly when they agree on being
    64-bit, on the update type and, for a set-up installation, on being
    per-user. The target of an archive installation plays no part. *)
Theorem updatePlatform_inj (arch arch' : string) (t t' : UpdateType) (target target' : string) :
  updatePlatform arch t target = updatePlatform arch' t' target' <->
  String.eqb arch "x64" = String.eqb arch' "x64"
  /\ t = t'
  /\ (t = Setup -> String.eqb target "user" = String.eqb target' "user").
Proof.
  unfold updatePlatform.
  destruct (String.eqb arch "x64"), (String.eqb arch' "x64"), t, t',
    (String.eqb target "user"), (String.eqb target' "user");
    vm_compute; split; intros H; try discriminate H;
    repeat match goal with
           | H : _ /\ _ |- _ => destruct H
           end;
    try discriminate; try reflexivity; repeat split; try reflexivity; try discriminate;
    match goal with
    | H : Setup = Setup -> _ |- _ => specialize (H eq_refl); discriminate H
    | _ => idtac
    end.
Qed.

Section CacheDirectory.

Import RegExp.



End CacheDirectory.


(** ** More on the janitor *)

(** Whether one of the deletions is a successful deletion of [p]. *)
Lemma classic_unlinked (io : IO) (dir : string) (stale : list string) (p : string) :
  (exists one, one ∈ stale /\ p = Path.join dir one /\ unlink_error io p = None)
  \/ ~ (exists one, one ∈ stale /\ p = Path.join dir one /\ unlink_error io p = None).
Proof.
  induction stale as [|a stale IH].
  - right. intros (one & Hin & _). inversion Hin.
  - destruct IH as [(one & Hin & Hp & Hu) | Hno].
    + left. exists one. rewrite elem_of_cons. auto.
    + destruct (decide (p = Path.join dir a)) as [-> | Hne].
      * destruct (unlink_error io (Path.join dir a)) eqn:Hu.
        -- right. intros (one & _ & _ & Hu'). congruence.
        -- left. exists a. rewrite elem_of_cons. auto.
      * right. intros (one & Hin & Hp & Hu). apply elem_of_cons in Hin as [-> | Hin].
        -- contradiction.
        -- apply Hno. eauto.
Qed.

(** X4. The janitor never fails because a deletion does: whether it
    completes is decided before the first deletion, by the cache directory,
    the listing and the filter. *)
Theorem cleanup_tolerates_unlink_failures (env : Env) (io io' : IO) (exceptVersion : string)
  (s : Service) :
  readdir_error io = readdir_error io' ->
  snd (cleanup env io exceptVersion s) = snd (cleanup env io' exceptVersion s).
Proof.
  intros Hrd. rewrite !cleanup_eq, Hrd.
  destruct (cachePath env); [| reflexivity].
  destruct (readdir_error io'); [reflexivity |].
  now destruct (filter_result _ _).
Qed.

Lemma cleanup_tolerates_unlink_failures_witness :
  readdir_error (Example.io "" false)
  = readdir_error (Example.io_locked "CodeSetup-stable-1.exe")
  /\ snd (cleanup (Example.env "user") (Example.io "" false) "2"
            (Example.service "user" [("CodeSetup-stable-1.exe", "one")]))
     = snd (cleanup (Example.env "user") (Example.io_locked "CodeSetup-stable-1.exe") "2"
              (Example.service "user" [("CodeSetup-stable-1.exe", "one")])).
Proof.
  split; [reflexivity |].
  exact (cleanup_tolerates_unlink_failures (Example.env "user") (Example.io "" false)
           (Example.io_locked "CodeSetup-stable-1.exe") "2"
           (Example.service "user" [("CodeSetup-stable-1.exe", "one")]) eq_refl).
Defined.

(** X5. The janitor only deletes, and only in the cache directory: a file
    that is changed by it is gone, was an entry of the cache directory that
    the filter selected, and its deletion succeeded. Every other file is as
    it was, and so are all files when the janitor fails. *)
Theorem cleanup_only_deletes_entries (env : Env) (io : IO) (exceptVersion : string)
  (s : Service) (p : string) :
  files (fst (cleanup env io exceptVersion s)) !! p <> files s !! p ->
  files (fst (cleanup env io exceptVersion s)) !! p = None
  /\ snd (cleanup env io exceptVersion s) = Resolved tt
  /\ exists dir name,
       cachePath env = Resolved dir /\ p = Path.join dir name
       /\ name ∈ Pfs.entries dir (files s)
       /\ cleanupFilter env exceptVersion name = Resolved true
       /\ unlink_error io p = None.
Proof.
  rewrite cleanup_eq.
  destruct (cachePath env) as [dir|e]; [| intros []; reflexivity].
  destruct (readdir_error io); [intros []; reflexivity |].
  destruct (filter_result _ _) as [stale|e] eqn:Hstale; [| intros []; reflexivity].
  cbn [fst snd files with_files]. intros Hdiff.
  destruct (files s !! p) as [c|] eqn:Hp.
  - destruct (unlinkAll io dir stale (files s) !! p) as [c'|] eqn:Hp'.
    + apply unlinkAll_lookup in Hp' as [Hp' _]. congruence.
    + split; [reflexivity |]. split; [reflexivity |].
      destruct (classic_unlinked io dir stale p) as [(one & Hone & -> & Hu) | Hno].
      * exists dir, one. apply (filter_result_Resolved _ _ _ Hstale) in Hone as [Hin Hsel].
        auto 10.
      * exfalso. assert (unlinkAll io dir stale (files s) !! p = Some c)
          by (apply unlinkAll_lookup; auto). congruence.
  - exfalso. apply Hdiff.
    destruct (unlinkAll io dir stale (files s) !! p) as [c'|] eqn:Hp'; [| reflexivity].
    apply unlinkAll_lookup in Hp' as [Hp' _]. congruence.
Qed.

Lemma cleanup_only_deletes_entries_witness :
  files (fst (cleanup (Example.env "user") (Example.io "" false) "2"
                (Example.service "user"
                   [("CodeSetup-stable-1.exe", "one"); ("CodeSetup-stable-2.exe", "two")])))
    !! Path.join Example.dir "CodeSetup-stable-1.exe"
  <> files (Example.service "user"
              [("CodeSetup-stable-1.exe", "one"); ("CodeSetup-stable-2.exe", "two")])
       !! Path.join Example.dir "CodeSetup-stable-1.exe"
  /\ files (fst (cleanup (Example.env "user") (Example.io "" false) "2"
                   (Example.service "user"
                      [("CodeSetup-stable-1.exe", "one"); ("CodeSetup-stable-2.exe", "two")])))
       !! Path.join Example.dir "CodeSetup-stable-1.exe" = None.
Proof.
  assert (H : files (fst (cleanup (Example.env "user") (Example.io "" false) "2"
                (Example.service "user"
                   [("CodeSetup-stable-1.exe", "one"); ("CodeSetup-stable-2.exe", "two")])))
    !! Path.join Example.dir "CodeSetup-stable-1.exe"
  <> files (Example.service "user"
              [("CodeSetup-stable-1.exe", "one"); ("CodeSetup-stable-2.exe", "two")])
       !! Path.join Example.dir "CodeSetup-stable-1.exe")
    by (vm_compute; discriminate).
  split; [exact H |].
  exact (proj1 (cleanup_only_deletes_entries (Example.env "user") (Example.io "" false) "2"
                  _ _ H)).
Defined.

Lemma filter_result_all {A} (f : A -> Result bool) (xs : list A) :
  (forall x, f x = Resolved true) -> filter_result f xs = Resolved xs.
Proof.
  intros Hf. induction xs as [|x xs IH]; [reflexivity |].
  cbn. now rewrite Hf, IH.
Qed.

(** X6. Without a version to keep the janitor builds no pattern and selects
    every entry: it completes as soon as the directory can be listed, and
    the entries left are those whose deletion failed. *)
Theorem cleanup_everything (env : Env) (io : IO) (s : Service) (dir : string) :
  cachePath env = Resolved dir ->
  readdir_error io = None ->
  snd (cleanup env io "" s) = Resolved tt
  /\ forall name,
       name ∈ Pfs.entries dir (files (fst (cleanup env io "" s))) <->
       name ∈ Pfs.entries dir (files s) /\ unlink_error io (Path.join dir name) <> None.
Proof.
  intros Hdir Hrd. rewrite cleanup_eq, Hdir, Hrd.
  rewrite filter_result_all by reflexivity. cbn [fst snd files with_files].
  split; [reflexivity |]. intros name. rewrite !elem_of_entries. split.
  - intros ([c Hc] & Hs & Hn). apply unlinkAll_lookup in Hc as [Hc Hno].
    split; [eauto |]. intros Hu. apply Hno. exists name.
    split; [apply elem_of_entries; eauto | auto].
  - intros (([c Hc] & Hs & Hn) & Hfail). split; [| auto].
    exists c. apply unlinkAll_lookup. split; [assumption |].
    intros (one & _ & Hp & Hu). contradiction.
Qed.

Lemma cleanup_everything_witness :
  readdir_error (Example.io "" false) = None /\
  snd (cleanup (Example.env "user") (Example.io "" false) ""
         (Example.service "user" [("CodeSetup-stable-1.exe", "one")]))
  = Resolved tt.
Proof.
  split; [reflexivity |].
  exact (proj1 (cleanup_everything (Example.env "user") (Example.io "" false)
                  (Example.service "user" [("CodeSetup-stable-1.exe", "one")])
                  Example.dir eq_refl eq_refl)).
Defined.

Section Suffix.

Import RegExp.

Lemma match_here_refl (l : list ascii) : match_here (map Lit l) true l = true.
Proof. induction l as [|c l IH]; cbn; [reflexivity | now rewrite Ascii.eqb_refl]. Qed.

Lemma search_literal (l s : list ascii) :
  search (map Lit l) true s = true <-> exists pre, s = pre ++ l.
Proof.
  split.
  - intros H. apply search_inv in H as (pre & suf & -> & Hm).
    apply match_here_literal in Hm as ->. eauto.
  - intros [pre ->]. apply search_suffix, match_here_refl.
Qed.

Lemma string_app_list (s : string) (pre l : list ascii) :
  list_ascii_of_string s = pre ++ l ->
  s = string_of_list_ascii pre +:+ string_of_list_ascii l.
Proof.
  intros H. apply list_ascii_of_string_inj.
  now rewrite list_ascii_of_string_app, !list_ascii_of_string_of_list_ascii.
Qed.

(** X7. For a quality and a version made of letters and digits the
    janitor's pattern is a plain test on the end of the name: an entry is
    kept exactly when its name ends in [<quality>-<version>.exe]. So the
    temporary file of a download and the marker file of an update, of
    whatever version, are always selected for deletion. *)
Theorem cleanupFilter_suffix (env : Env) (V name : string) :
  truthy_string V = true ->
  alnum (product_quality env) = true -> alnum V = true ->
  (cleanupFilter env V name = Resolved false <->
   exists pre, name = pre +:+ product_quality env +:+ "-" +:+ V +:+ ".exe")
  /\ (cleanupFilter env V name = Resolved false
      \/ cleanupFilter env V name = Resolved true)
  /\ (forall v, cleanupFilter env V (updatePackageName env v +:+ ".tmp") = Resolved true)
  /\ (forall v, cleanupFilter env V (updateFlagName env v) = Resolved true).
Proof.
  intros Ht Hq HV.
  assert (Hkept : forall name,
             cleanupFilter env V name = Resolved false <->
             exists pre, name = pre +:+ product_quality env +:+ "-" +:+ V +:+ ".exe").
  { intros n. rewrite cleanupFilter_alnum by assumption. split.
    - intros [= H]. apply negb_false_iff, search_literal in H as [pre H].
      exists (string_of_list_ascii pre). apply string_app_list in H.
      now rewrite string_of_list_ascii_of_string in H.
    - intros [pre ->]. f_equal. apply negb_false_iff, search_literal.
      exists (list_ascii_of_string pre). now rewrite list_ascii_of_string_app. }
  assert (Hbool : forall name,
             cleanupFilter env V name = Resolved false
             \/ cleanupFilter env V name = Resolved true).
  { intros n. rewrite cleanupFilter_alnum by assumption.
    destruct (search _ _ _); cbn; auto. }
  assert (Hend : forall stem ext : string,
             (forall pre, stem +:+ ext <> pre +:+ product_quality env +:+ "-" +:+ V +:+ ".exe") ->
             cleanupFilter env V (stem +:+ ext) = Resolved true).
  { intros stem ext Hno. destruct (Hbool (stem +:+ ext)) as [H | H]; [| exact H].
    apply Hkept in H as [pre H]. now apply Hno in H. }
  split_and!; [apply Hkept | apply Hbool | |].
  - intros v. apply Hend. intros pre H.
    apply (f_equal list_ascii_of_string) in H.
    rewrite !list_ascii_of_string_app in H.
    change (list_ascii_of_string ".tmp") with ([".";"t";"m"]%char ++ ["p"%char]) in H.
    change (list_ascii_of_string ".exe") with ([".";"e";"x"]%char ++ ["e"%char]) in H.
    rewrite !app_assoc in H. apply app_inj_tail in H as [_ H]. discriminate H.
  - intros v. unfold updateFlagName.
    replace ("CodeSetup-" +:+ product_quality env +:+ "-" +:+ v +:+ ".flag")
      with (("CodeSetup-" +:+ product_quality env +:+ "-" +:+ v) +:+ ".flag")
      by now rewrite !append_assoc.
    apply Hend. intros pre H.
    apply (f_equal list_ascii_of_string) in H.
    rewrite !list_ascii_of_string_app in H.
    change (list_ascii_of_string ".flag") with ([".";"f";"l";"a"]%char ++ ["g"%char]) in H.
    change (list_ascii_of_string ".exe") with ([".";"e";"x"]%char ++ ["e"%char]) in H.
    rewrite !app_assoc in H. apply app_inj_tail in H as [_ H]. discriminate H.
Qed.

End Suffix.

Lemma cleanupFilter_suffix_witness :
  truthy_string "2" = true /\
  cleanupFilter (Example.env "user") "2" (updateFlagName (Example.env "user") "2")
  = Resolved true.
Proof.
  split; [reflexivity |].
  exact (proj2 (proj2 (proj2 (cleanupFilter_suffix (Example.env "user") "2" ""
                                eq_refl eq_refl eq_refl))) "2").
Defined.

(** ** More on the download step *)

(** The download step when the package is not in the cache. *)
Lemma fetchPackage_miss (env : Env) (io : IO) (update : IUpdate) (s : Service) (dir : string) :
  cachePath env = Resolved dir ->
  files s !! Path.join dir (updatePackageName env (version update)) = None ->
  let final := Path.join dir (updatePackageName env (version update)) in
  let tmp := final +:+ ".tmp" in
  let requested := with_requests (url update :: requests s) s in
  let written := with_files (<[tmp := download_written io]> (files s)) requested in
  fetchPackage env io update s =
  match request_error io with
  | Some e => (requested, Rejected e)
  | None =>
      match download_error io with
      | Some e => (written, Rejected e)
      | None =>
          if truthy_opt (hash update)
             && negb (bool_decide (Some (sha1 env (download_written io)) = hash update))
          then (written, Rejected hash_mismatch)
          else
            match rename_error io with
            | Some e => (written, Rejected e)
            | None =>
                (with_files
                   (<[final := download_written io]>
                      (delete tmp (<[tmp := download_written io]> (files s))))
                   written,
                 Resolved final)
            end
      end
  end.
Proof.
  intros Hdir Hnone final tmp requested written.
  unfold fetchPackage, getUpdatePackagePath, Pfs.exists_, request, download, checksum,
    Pfs.rename, settle.
  task_unfold. rewrite Hdir. cbn. fold final. fold tmp. fold final in Hnone.
  rewrite Hnone.
  rewrite bool_decide_eq_false_2 by (intros [? ?]; discriminate). cbn.
  destruct (request_error io) as [e|]; cbn; [reflexivity |].
  destruct (download_error io) as [e|]; cbn; [reflexivity |].
  pose proof (lookup_insert_eq (files s) tmp (download_written io)) as Htmp.
  destruct (truthy_opt (hash update)); cbn.
  - rewrite Htmp.
    destruct (bool_decide (Some (sha1 env (download_written io)) = hash update)); cbn;
      [| reflexivity].
    destruct (rename_error io) as [e|]; cbn; [reflexivity |].
    rewrite Htmp. reflexivity.
  - destruct (rename_error io) as [e|]; cbn; [reflexivity |].
    rewrite Htmp. reflexivity.
Qed.

(** X8. The temporary file of the download step. When the step succeeds the
    download is at the package's place and the temporary file is gone; when
    it fails after the request nothing is at the package's place and the
    temporary file holds what was downloaded. What a temporary file left by
    an earlier cycle holds plays no part: the step ends the same way and,
    when it succeeds, leaves the same files. *)
Theorem fetchPackage_temporary (env : Env) (io : IO) (update : IUpdate) (s : Service)
  (dir : string) :
  cachePath env = Resolved dir ->
  files s !! Path.join dir (updatePackageName env (version update)) = None ->
  (forall p,
      snd (fetchPackage env io update s) = Resolved p ->
      files (fst (fetchPackage env io update s))
        !! (Path.join dir (updatePackageName env (version update)) +:+ ".tmp") = None
      /\ files (fst (fetchPackage env io update s))
           !! Path.join dir (updatePackageName env (version update))
         = Some (download_written io))
  /\ (forall e,
         snd (fetchPackage env io update s) = Rejected e ->
         files (fst (fetchPackage env io update s))
           !! Path.join dir (updatePackageName env (version update)) = None
         /\ (request_error io = None ->
             files (fst (fetchPackage env io update s))
               !! (Path.join dir (updatePackageName env (version update)) +:+ ".tmp")
             = Some (download_written io)))
  /\ (forall stale,
         snd (fetchPackage env io update
                (with_files
                   (<[Path.join dir (updatePackageName env (version update)) +:+ ".tmp"
                      := stale]> (files s)) s))
         = snd (fetchPackage env io update s)
         /\ (forall p,
                snd (fetchPackage env io update s) = Resolved p ->
                files (fst (fetchPackage env io update
                              (with_files
                                 (<[Path.join dir (updatePackageName env (version update))
                                    +:+ ".tmp" := stale]> (files s)) s)))
                = files (fst (fetchPackage env io update s)))).
Proof.
  intros Hdir Hnone.
  set (final := Path.join dir (updatePackageName env (version update))) in *.
  set (tmp := final +:+ ".tmp").
  assert (Hne : tmp <> final) by (apply append_neq_self; discriminate).
  pose proof (fetchPackage_miss env io update s dir Hdir Hnone) as Hrun.
  cbv zeta in Hrun. fold final in Hrun. fold tmp in Hrun.
  split_and!.
  - intros p. rewrite Hrun.
    destruct (request_error io); [discriminate |].
    destruct (download_error io); [discriminate |].
    destruct (_ && _); [discriminate |].
    destruct (rename_error io); [discriminate |].
    intros _. cbn [fst files with_files]. split.
    + rewrite lookup_insert_ne by congruence. apply lookup_delete_eq.
    + apply lookup_insert_eq.
  - intros e. rewrite Hrun.
    destruct (request_error io); [intros _; split; [exact Hnone | discriminate] |].
    assert (Hw : <[tmp := download_written io]> (files s) !! final = None)
      by now rewrite lookup_insert_ne.
    pose proof (lookup_insert_eq (files s) tmp (download_written io)) as Htmp.
    destruct (download_error io); [intros _; cbn; auto |].
    destruct (_ && _); [intros _; cbn; auto |].
    destruct (rename_error io); [intros _; cbn; auto | discriminate].
  - intros stale.
    assert (Hnone' : files (with_files (<[tmp := stale]> (files s)) s) !! final = None)
      by (cbn; now rewrite lookup_insert_ne).
    pose proof (fetchPackage_miss env io update _ dir Hdir Hnone') as Hrun'.
    cbv zeta in Hrun'. fold final in Hrun'. fold tmp in Hrun'.
    rewrite Hrun, Hrun'.
    destruct (request_error io); [split; [reflexivity | discriminate] |].
    destruct (download_error io); [split; [reflexivity | discriminate] |].
    destruct (_ && _); [split; [reflexivity | discriminate] |].
    destruct (rename_error io); [split; [reflexivity | discriminate] |].
    split; [reflexivity |]. intros p _. cbn [fst files with_files].
    now rewrite insert_insert_eq.
Qed.

Lemma fetchPackage_temporary_witness :
  files (Example.service "user" [])
    !! Path.join Example.dir
         (updatePackageName (Example.env "user")
            (version (Example.update "3" (Some "sha1:body") true))) = None
  /\ files (fst (fetchPackage (Example.env "user") (Example.io "body" true)
                   (Example.update "3" (Some "sha1:body") true)
                   (Example.service "user" [])))
       !! (Path.join Example.dir
             (updatePackageName (Example.env "user")
                (version (Example.update "3" (Some "sha1:body") true))) +:+ ".tmp")
     = None.
Proof.
  assert (H : files (Example.service "user" [])
    !! Path.join Example.dir
         (updatePackageName (Example.env "user")
            (version (Example.update "3" (Some "sha1:body") true))) = None)
    by (vm_compute; reflexivity).
  split; [exact H |].
  refine (proj1 (proj1 (fetchPackage_temporary (Example.env "user") (Example.io "body" true)
                   (Example.update "3" (Some "sha1:body") true)
                   (Example.service "user" []) Example.dir eq_refl H) _ _)).
  vm_compute. reflexivity.
Defined.

(** ** More on the check cycle *)

Lemma usable_None (update : option IUpdate) :
  usable update = None <->
  update = None
  \/ exists u, update = Some u /\ (url u = "" \/ version u = "" \/ productVersion u = "").
Proof.
  unfold usable, truthy_string. destruct update as [u|]; [| tauto].
  destruct (String.eqb_spec (url u) ""), (String.eqb_spec (version u) ""),
    (String.eqb_spec (productVersion u) ""); cbn; split;
    try (intros _; right; exists u; tauto); try reflexivity; try discriminate.
  intros [H | (u' & [= <-] & [H | [H | H]])]; congruence.
Qed.

(** X9. A feed that gives no update, or an update without [url], [version]
    or [productVersion], ends the check in [Idle] without an error: the feed
    is the only request, no file is touched, nothing is logged as an error
    and no update is recorded. *)
Theorem no_update_ends_Idle (env : Env) (update : option IUpdate) (io : IO) (context : any)
  (s : Service) (feedUrl' : string) :
  feedUrl env = Some feedUrl' -> truthy_string feedUrl' = true ->
  update = None
  \/ (exists u, update = Some u /\ (url u = "" \/ version u = "" \/ productVersion u = "")) ->
  state (fst (doCheckForUpdates env (Resolved update) io context s))
  = Idle (updateType env) None
  /\ announced (fst (doCheckForUpdates env (Resolved update) io context s))
     = Idle (updateType env) None :: CheckingForUpdates context :: announced s
  /\ requests (fst (doCheckForUpdates env (Resolved update) io context s))
     = feedUrl' :: requests s
  /\ files (fst (doCheckForUpdates env (Resolved update) io context s)) = files s
  /\ errorLog (fst (doCheckForUpdates env (Resolved update) io context s)) = errorLog s
  /\ availableUpdate (fst (doCheckForUpdates env (Resolved update) io context s))
     = availableUpdate s.
Proof.
  intros Hurl Htruthy Hnone. apply usable_None in Hnone.
  rewrite (doCheckForUpdates_unfold env _ io context s feedUrl' Hurl Htruthy).
  cbv zeta. rewrite Hnone. repeat split.
Qed.

Lemma no_update_ends_Idle_witness :
  truthy_string "https://update.example/api/update/win32-x64/stable/abc" = true /\
  state (fst (doCheckForUpdates (Example.env "user")
                (Resolved (Some {| version := "3"; productVersion := ""; url := "https://x/pkg";
                                   hash := None; supportsFastUpdate := false |}))
                (Example.io "body" false) null (Example.service "user" [])))
  = Idle Setup None.
Proof.
  split; [reflexivity |].
  refine (proj1 (no_update_ends_Idle (Example.env "user") _ (Example.io "body" false) null
                   (Example.service "user" []) _ eq_refl eq_refl _)).
  right. eexists. split; [reflexivity |]. right. right. reflexivity.
Defined.

(** X10. On an archive installation a check downloads nothing: with a
    usable update it ends in [AvailableForDownload], the feed being the only
    request and no file touched, whatever the network would have done.
    [doDownloadUpdate] then opens the update's URL in the browser and makes
    the service [Idle]. *)
Theorem archive_check_delegates (env : Env) (io : IO) (context : any) (s : Service)
  (feedUrl' : string) (u : IUpdate) :
  feedUrl env = Some feedUrl' -> truthy_string feedUrl' = true ->
  updateType env = Archive -> usable (Some u) = Some u ->
  state (fst (doCheckForUpdates env (Resolved (Some u)) io context s))
  = AvailableForDownload u
  /\ requests (fst (doCheckForUpdates env (Resolved (Some u)) io context s))
     = feedUrl' :: requests s
  /\ files (fst (doCheckForUpdates env (Resolved (Some u)) io context s)) = files s
  /\ availableUpdate (fst (doCheckForUpdates env (Resolved (Some u)) io context s))
     = availableUpdate s
  /\ state (fst (doDownloadUpdate env u
                   (fst (doCheckForUpdates env (Resolved (Some u)) io context s))))
     = Idle Archive None
  /\ opened (fst (doDownloadUpdate env u
                    (fst (doCheckForUpdates env (Resolved (Some u)) io context s))))
     = url u :: opened s.
Proof.
  intros Hurl Htruthy Harchive Hu.
  rewrite (doCheckForUpdates_unfold env _ io context s feedUrl' Hurl Htruthy).
  cbv zeta. rewrite Hu, Harchive.
  unfold doDownloadUpdate, setState. task_unfold. cbn.
  rewrite Harchive. repeat split.
Qed.

Lemma archive_check_delegates_witness :
  truthy_string "https://update.example/api/update/win32-x64/stable/abc" = true /\
  state (fst (doCheckForUpdates
                {| product_quality := "stable"; product_target := "user";
                   product_win32MutexName := "vscode";
                   feedUrl := Some "https://update.example/api/update/win32-x64/stable/abc";
                   updateType := Archive; cachePath := Resolved Example.dir;
                   sha1 := fun contents => contents;
                   regexp_engine := fun _ _ => Resolved false |}
                (Resolved (Some (Example.update "3" None false)))
                (Example.io "body" false) null (Example.service "user" [])))
  = AvailableForDownload (Example.update "3" None false).
Proof.
  split; [reflexivity |].
  exact (proj1 (archive_check_delegates
                  {| product_quality := "stable"; product_target := "user";
                     product_win32MutexName := "vscode";
                     feedUrl := Some "https://update.example/api/update/win32-x64/stable/abc";
                     updateType := Archive; cachePath := Resolved Example.dir;
                     sha1 := fun contents => contents;
                     regexp_engine := fun _ _ => Resolved false |}
                  (Example.io "body" false) null (Example.service "user" [])
                  _ (Example.update "3" None false) eq_refl eq_refl eq_refl eq_refl)).
Defined.

Lemma cleanup_requests (env : Env) (io : IO) (exceptVersion : string) (s : Service) :
  requests (fst (cleanup env io exceptVersion s)) = requests s.
Proof.
  rewrite cleanup_eq. destruct (cachePath env); [| reflexivity].
  destruct (readdir_error io); [reflexivity |].
  now destruct (filter_result _ _).
Qed.

Lemma fetchPackage_requests (env : Env) (io : IO) (u : IUpdate) (s : Service) :
  requests (fst (fetchPackage env io u s)) = requests s
  \/ requests (fst (fetchPackage env io u s)) = url u :: requests s.
Proof.
  destruct (cachePath env) as [dir|e] eqn:Hdir.
  - pose proof (fetchPackage_run env io u s dir Hdir) as Hrun. cbv zeta in Hrun.
    destruct (fetchPackage env io u s) as [s' [p|e]]; cbn [fst].
    + destruct Hrun as [_ [[_ ->] | (_ & _ & _ & _ & _ & ->)]]; auto.
    + destruct Hrun as [_ [[_ ->] | (_ & -> & _)]]; auto.
  - left. unfold fetchPackage, getUpdatePackagePath. task_unfold. now rewrite Hdir.
Qed.

Lemma checkFailed_requests (env : Env) (context : any) (e : Err) (s : Service) :
  requests (fst (checkFailed env context e s)) = requests s.
Proof. reflexivity. Qed.

(** X11. A check requests the feed and, after it, at most the URL the feed
    gave for the package, once: nothing else is requested, and the package
    is requested only for a usable update of a set-up installation. *)
Theorem check_requests (env : Env) (feed : Result (option IUpdate)) (io : IO) (context : any)
  (s : Service) (feedUrl' : string) :
  feedUrl env = Some feedUrl' -> truthy_string feedUrl' = true ->
  requests (fst (doCheckForUpdates env feed io context s)) = feedUrl' :: requests s
  \/ exists u,
       feed = Resolved (Some u) /\ usable (Some u) = Some u /\ updateType env = Setup
       /\ requests (fst (doCheckForUpdates env feed io context s))
          = url u :: feedUrl' :: requests s.
Proof.
  intros Hurl Htruthy.
  rewrite (doCheckForUpdates_unfold env _ io context s feedUrl' Hurl Htruthy). cbv zeta.
  destruct feed as [update|e]; [| now left].
  destruct (usable update) as [u|] eqn:Hu; [| now left].
  assert (update = Some u) as ->.
  { destruct update as [u'|]; [| discriminate]. cbn in Hu.
    destruct (_ && _); congruence. }
  destruct (updateType env) eqn:Htype; [| now left].
  match goal with |- context [cleanup env io (version u) ?x] => set (s1 := x) end.
  assert (Hs1 : requests s1 = feedUrl' :: requests s) by reflexivity.
  pose proof (cleanup_requests env io (version u) s1) as Hclean.
  clearbody s1.
  destruct (cleanup env io (version u) s1) as [s2 [[]|e]]; cbn [fst] in Hclean.
  - pose proof (fetchPackage_requests env io u s2) as Hfetch.
    destruct (fetchPackage env io u s2) as [s3 [p|e]]; cbn [fst] in *.
    + destruct (packageReady_frame env io u p s3) as (_ & _ & _ & Hready).
      cbn [fst]. rewrite Hready.
      destruct Hfetch as [Hf | Hf]; rewrite Hf, Hclean, Hs1; [now left |].
      right. exists u. auto.
    + rewrite checkFailed_requests.
      destruct Hfetch as [Hf | Hf]; rewrite Hf, Hclean, Hs1; [now left |].
      right. exists u. auto.
  - left. now rewrite checkFailed_requests, Hclean, Hs1.
Qed.

Lemma check_requests_witness :
  truthy_string "https://update.example/api/update/win32-x64/stable/abc" = true /\
  (requests (fst (doCheckForUpdates (Example.env "user")
                    (Resolved (Some (Example.update "3" None false)))
                    (Example.io "body" false) null (Example.service "user" [])))
   = "https://update.example/api/update/win32-x64/stable/abc"
       :: requests (Example.service "user" [])
   \/ exists u,
        Resolved (Some (Example.update "3" None false)) = Resolved (Some u)
        /\ usable (Some u) = Some u /\ updateType (Example.env "user") = Setup
        /\ requests (fst (doCheckForUpdates (Example.env "user")
                            (Resolved (Some (Example.update "3" None false)))
                            (Example.io "body" false) null (Example.service "user" [])))
           = url u :: "https://update.example/api/update/win32-x64/stable/abc"
               :: requests (Example.service "user" [])).
Proof.
  split; [reflexivity |].
  exact (check_requests (Example.env "user")
           (Resolved (Some (Example.update "3" None false)))
           (Example.io "body" false) null (Example.service "user" []) _ eq_refl eq_refl).
Defined.

(** A check whose chain resolves for a usable update of a set-up
    installation has the package at its place in the cache and ends with
    what follows the download. *)
Lemma checkChain_package (env : Env) (feedUrl' : string) (io : IO) (context : any)
  (s s' : Service) (u : IUpdate) :
  usable (Some u) = Some u -> updateType env = Setup ->
  checkChain env feedUrl' (Resolved (Some u)) io context
    (fst (setState (CheckingForUpdates context) s)) = (s', Resolved tt) ->
  exists s3 dir,
    cachePath env = Resolved dir /\
    state s3 = Downloading u /\
    spawned s3 = spawned s /\ markers s3 = markers s /\
    is_Some (files s3 !! Path.join dir (updatePackageName env (version u))) /\
    s' = fst (packageReady env io u (Path.join dir (updatePackageName env (version u))) s3).
Proof.
  intros Hu Hsetup. rewrite checkChain_unfold. cbv zeta. rewrite Hu, Hsetup.
  match goal with |- context [cleanup env io (version u) ?x] => set (s1 := x) end.
  assert (Hs1 : state s1 = Downloading u /\ spawned s1 = spawned s /\ markers s1 = markers s)
    by (repeat split).
  pose proof (cleanup_io_only env io (version u) s1) as Hclean.
  pose proof (cleanup_run env io (version u) s1) as Hrun.
  clearbody s1.
  destruct (cleanup env io (version u) s1) as [s2 [[]|e]]; [| discriminate].
  destruct Hrun as (dir & _ & Hdir & _).
  pose proof (fetchPackage_io_only env io u s2) as Hfetch.
  pose proof (fetchPackage_run env io u s2 dir Hdir) as Hfrun. cbv zeta in Hfrun.
  destruct (fetchPackage env io u s2) as [s3 [p|e]]; [| discriminate].
  intros [= <-]. exists s3, dir. cbn [fst] in *.
  destruct Hfrun as [-> Hfiles].
  assert (Hthere : is_Some (files s3 !! Path.join dir (updatePackageName env (version u)))).
  { destruct Hfiles as [[Hc ->] | (_ & _ & _ & _ & _ & ->)]; [exact Hc |].
    cbn [files with_files]. rewrite lookup_insert_eq. eauto. }
  unfold same_control in *. intuition congruence.
Qed.

(** X12. When fast updates are off, or the update does not support them, a
    check that downloads the package ends in [Ready] with the package's path
    recorded and the package at that path. [doQuitAndInstall] then spawns
    that very file with [/silent], and touches no file. *)
Theorem full_update_runs_cached_package (env : Env) (io : IO) (context : any)
  (s s1 : Service) (feedUrl' : string) (u : IUpdate) :
  feedUrl env = Some feedUrl' -> truthy_string feedUrl' = true ->
  usable (Some u) = Some u -> updateType env = Setup ->
  checkChain env feedUrl' (Resolved (Some u)) io context
    (fst (setState (CheckingForUpdates context) s)) = (s1, Resolved tt) ->
  fastUpdatesEnabled io && supportsFastUpdate u = false ->
  exists packagePath,
    state (fst (doCheckForUpdates env (Resolved (Some u)) io context s)) = Ready u
    /\ availableUpdate (fst (doCheckForUpdates env (Resolved (Some u)) io context s))
       = Some {| packagePath := packagePath; updateFilePath := None |}
    /\ is_Some (files (fst (doCheckForUpdates env (Resolved (Some u)) io context s))
                !! packagePath)
    /\ spawned (fst (doCheckForUpdates env (Resolved (Some u)) io context s)) = spawned s
    /\ doQuitAndInstall (fst (doCheckForUpdates env (Resolved (Some u)) io context s))
       = (with_spawned ((packagePath, silentArgs) :: spawned s)
            (fst (doCheckForUpdates env (Resolved (Some u)) io context s)),
          Resolved tt).
Proof.
  intros Hurl Htruthy Hu Hsetup Hchain Hfull.
  rewrite (doCheckForUpdates_catch env _ io context s feedUrl' Hurl Htruthy), Hchain.
  cbn [fst].
  destruct (checkChain_package env feedUrl' io context s s1 u Hu Hsetup Hchain)
    as (s3 & dir & Hdir & Hstate & Hspawn & _ & Hthere & ->).
  exists (Path.join dir (updatePackageName env (version u))).
  rewrite packageReady_eq. cbv zeta. rewrite Hfull.
  unfold doQuitAndInstall, spawn, setState. task_unfold. cbn.
  rewrite Hspawn. split_and!; try reflexivity; [exact Hthere |].
  destruct (supportsFastUpdate u); cbn; rewrite Hspawn; reflexivity.
Qed.

Lemma full_update_runs_cached_package_witness :
  truthy_string "https://update.example/api/update/win32-x64/stable/abc" = true /\
  exists packagePath,
    state (fst (doCheckForUpdates (Example.env "user")
                  (Resolved (Some (Example.update "3" None true)))
                  (Example.io "body" false) null (Example.service "user" [])))
    = Ready (Example.update "3" None true)
    /\ availableUpdate (fst (doCheckForUpdates (Example.env "user")
                               (Resolved (Some (Example.update "3" None true)))
                               (Example.io "body" false) null (Example.service "user" [])))
       = Some {| packagePath := packagePath; updateFilePath := None |}.
Proof.
  split; [reflexivity |].
  destruct (full_update_runs_cached_package (Example.env "user") (Example.io "body" false)
              null (Example.service "user" [])
              (fst (checkChain (Example.env "user")
                      "https://update.example/api/update/win32-x64/stable/abc"
                      (Resolved (Some (Example.update "3" None true)))
                      (Example.io "body" false) null
                      (fst (setState (CheckingForUpdates null) (Example.service "user" [])))))
              _ (Example.update "3" None true) eq_refl eq_refl eq_refl eq_refl
              ltac:(vm_compute; reflexivity) eq_refl)
    as (p & Hstate & Havail & _).
  exists p. split; assumption.
Defined.

(** ** More on applying an update *)

(** X13. Applying twice is applying once: the second [doApplyUpdate] finds
    the service [Updating], or finds what stopped the first, and does
    nothing; no second marker is written. *)
Theorem doApplyUpdate_idempotent (env : Env) (s : Service) :
  fst (doApplyUpdate env (fst (doApplyUpdate env s))) = fst (doApplyUpdate env s).
Proof.
  destruct (is_downloaded_or_downloading (state s)) as [u|] eqn:Hs.
  - destruct (availableUpdate s) as [a|] eqn:Ha.
    + rewrite doApplyUpdate_noop; [reflexivity |]. left.
      unfold doApplyUpdate, setState. task_unfold. rewrite Hs, Ha. cbn.
      now destruct (cachePath env).
    + rewrite (doApplyUpdate_noop env s) by auto. cbn [fst].
      now rewrite (doApplyUpdate_noop env s) by auto.
  - rewrite (doApplyUpdate_noop env s) by auto. cbn [fst].
    now rewrite (doApplyUpdate_noop env s) by auto.
Qed.

#[local] Arguments truthy_string : simpl never.

Lemma join_truthy (dir name : string) : truthy_string (Path.join dir name) = true.
Proof.
  unfold truthy_string, Path.join.
  destruct (String.eqb_spec (dir +:+ Path.sep +:+ name) "") as [H|]; [| reflexivity].
  apply (f_equal String.length) in H. rewrite !append_length in H. cbn in H. lia.
Qed.

(** X14. A fast update from apply to quit. From [Downloaded] with a package
    recorded, [doApplyUpdate] and the marker's write leave the service
    [Updating] with the marker file written and the installer spawned on the
    recorded package, with [/verysilent] and the marker's path. Once the poll
    has found the mutex active, [doQuitAndInstall] removes the marker file
    and spawns nothing more. *)
Theorem fast_update_from_apply_to_quit (env : Env) (s : Service) (u : IUpdate)
  (a : IAvailableUpdate) (dir : string) :
  is_downloaded_or_downloading (state s) = Some u ->
  availableUpdate s = Some a ->
  cachePath env = Resolved dir ->
  supportsFastUpdate u = true ->
  markers s = [] ->
  let flag := Path.join dir (updateFlagName env (version u)) in
  let applied := run env s [ApplyUpdate; MarkerSettled None] in
  let quit := run env applied [PollAttempt (length (polls s)) true; QuitAndInstall] in
  state applied = Updating u
  /\ files applied = <[flag := "flag"]> (files s)
  /\ spawned applied = (packagePath a, verysilentArgs (Some flag)) :: spawned s
  /\ children applied = S (children s)
  /\ state quit = Ready u
  /\ files quit = delete flag (files s)
  /\ spawned quit = spawned applied.
Proof.
  intros Hs Ha Hdir Hfast Hmarkers flag applied quit.
  assert (Happlied : applied =
    with_polls (polls s ++ [u])
      (with_children (S (children s))
         (with_spawned ((packagePath a, verysilentArgs (Some flag)) :: spawned s)
            (with_files (<[flag := "flag"]> (files s))
               (with_markers []
                  (with_availableUpdate
                     (Some {| packagePath := packagePath a; updateFilePath := Some flag |})
                     (fst (setState (Updating u) s)))))))).
  { unfold applied, run, step. cbn [fold_left handle].
    rewrite (doApplyUpdate_applies env s u a dir Hs Ha Hdir). cbn [fst].
    unfold markerSettled, markerWritten, Pfs.writeFile, spawn, setState. task_unfold. cbn.
    rewrite Hmarkers. reflexivity. }
  split_and!; try (rewrite Happlied; reflexivity).
  all: unfold quit, run, step; cbn [fold_left handle]; rewrite Happlied;
    unfold pollAttempt, doQuitAndInstall, Pfs.unlinkSync, setState; task_unfold; cbn;
    rewrite list_lookup_middle by reflexivity; cbn;
    rewrite Hfast; unfold flag; rewrite join_truthy;
    cbn; rewrite lookup_insert_eq; cbn; try reflexivity.
  apply delete_insert_eq.
Qed.

Lemma fast_update_from_apply_to_quit_witness :
  supportsFastUpdate (Example.update "3" None true) = true /\
  state (run (Example.env "system")
           (fst (doCheckForUpdates (Example.env "system")
                   (Resolved (Some (Example.update "3" None true)))
                   (Example.io "body" true) null (Example.service "system" [])))
           [ApplyUpdate; MarkerSettled None])
  = Updating (Example.update "3" None true).
Proof.
  split; [reflexivity |].
  refine (proj1 (fast_update_from_apply_to_quit (Example.env "system")
                   (fst (doCheckForUpdates (Example.env "system")
                           (Resolved (Some (Example.update "3" None true)))
                           (Example.io "body" true) null (Example.service "system" [])))
                   (Example.update "3" None true)
                   {| packagePath := Path.join Example.dir "CodeSetup-stable-3.exe";
                      updateFilePath := None |}
                   Example.dir _ _ eq_refl eq_refl _));
    vm_compute; reflexivity.
Defined.

(** A service that is [Updating] with nothing outstanding and no poll
    running does not move. *)
Lemma updating_alone_is_stuck (env : Env) (s : Service) (e : Event) :
  type (state s) = TUpdating -> outstanding s = 0 -> polls s = [] ->
  step env s e = s.
Proof.
  intros Hstate Hout Hpolls. unfold outstanding in Hout.
  assert (Hf : feeds s = []) by (destruct (feeds s); [reflexivity | cbn in Hout; lia]).
  assert (Ha : acquisitions s = [])
    by (destruct (acquisitions s); [reflexivity | cbn in Hout; lia]).
  assert (Hm : markers s = []) by (destruct (markers s); [reflexivity | cbn in Hout; lia]).
  assert (Hc : children s = 0) by lia.
  destruct (state s) eqn:Hs; try discriminate Hstate.
  unfold step. destruct e; cbn [handle].
  - unfold checkForUpdates. task_unfold. now rewrite Hs.
  - unfold feedSettled. task_unfold. now rewrite Hf.
  - unfold acquisitionSettled. task_unfold. now rewrite Ha.
  - rewrite doApplyUpdate_noop; [reflexivity |]. left. now rewrite Hs.
  - unfold markerSettled. task_unfold. now rewrite Hm.
  - unfold installerExit. task_unfold. now rewrite Hc.
  - unfold pollAttempt. task_unfold. now rewrite Hpolls.
  - unfold doQuitAndInstall. task_unfold. now rewrite Hs.
  - unfold downloadUpdate. task_unfold. now rewrite Hs.
Qed.

(** X15. When the marker file cannot be written no installer is spawned,
    and the service is left [Updating]. If nothing else was outstanding and
    no poll was running, no call and no event moves it from there: checks
    are refused outside [Idle], and there is no installer to exit and no
    poll to complete. *)
Theorem marker_failure_stalls (env : Env) (s : Service) (u : IUpdate)
  (a : IAvailableUpdate) (dir : string) (e : Err) (trace : list Event) :
  is_downloaded_or_downloading (state s) = Some u ->
  availableUpdate s = Some a ->
  cachePath env = Resolved dir ->
  outstanding s = 0 -> polls s = [] ->
  state (run env s [ApplyUpdate; MarkerSettled (Some e)]) = Updating u
  /\ spawned (run env s [ApplyUpdate; MarkerSettled (Some e)]) = spawned s
  /\ files (run env s [ApplyUpdate; MarkerSettled (Some e)]) = files s
  /\ run env (run env s [ApplyUpdate; MarkerSettled (Some e)]) trace
     = run env s [ApplyUpdate; MarkerSettled (Some e)].
Proof.
  intros Hs Ha Hdir Hout Hpolls.
  assert (Hm : markers s = []).
  { unfold outstanding in Hout. destruct (markers s); [reflexivity |].
    cbn in Hout. lia. }
  assert (Hfailed : run env s [ApplyUpdate; MarkerSettled (Some e)] =
    with_markers []
      (with_availableUpdate
         (Some {| packagePath := packagePath a;
                  updateFilePath := Some (Path.join dir (updateFlagName env (version u))) |})
         (fst (setState (Updating u) s)))).
  { unfold run, step. cbn [fold_left handle].
    rewrite (doApplyUpdate_applies env s u a dir Hs Ha Hdir). cbn [fst].
    unfold markerSettled, markerWritten, Pfs.writeFile, setState. task_unfold. cbn.
    rewrite Hm. reflexivity. }
  rewrite Hfailed. split_and!; try reflexivity.
  induction trace as [|e' trace IH]; [reflexivity |].
  cbn [run fold_left]. rewrite updating_alone_is_stuck; [exact IH | reflexivity | |].
  - unfold outstanding in *. cbn. rewrite Hm in Hout. cbn in Hout. lia.
  - exact Hpolls.
Qed.

Lemma marker_failure_stalls_witness :
  outstanding (fst (doCheckForUpdates (Example.env "system")
                      (Resolved (Some (Example.update "3" None true)))
                      (Example.io "body" true) null (Example.service "system" []))) = 0 /\
  state (run (Example.env "system")
           (fst (doCheckForUpdates (Example.env "system")
                   (Resolved (Some (Example.update "3" None true)))
                   (Example.io "body" true) null (Example.service "system" [])))
           [ApplyUpdate; MarkerSettled (Some (Error "EACCES"))])
  = Updating (Example.update "3" None true).
Proof.
  split; [reflexivity |].
  refine (proj1 (marker_failure_stalls (Example.env "system")
                   (fst (doCheckForUpdates (Example.env "system")
                           (Resolved (Some (Example.update "3" None true)))
                           (Example.io "body" true) null (Example.service "system" [])))
                   (Example.update "3" None true)
                   {| packagePath := Path.join Example.dir "CodeSetup-stable-3.exe";
                      updateFilePath := None |}
                   Example.dir (Error "EACCES") [] _ _ eq_refl _ _));
    vm_compute; reflexivity.
Defined.

(** ** States the service goes through *)

(** What [doApplyUpdate] does to the controller. *)
Lemma doApplyUpdate_control (env : Env) (s : Service) :
  feeds (fst (doApplyUpdate env s)) = feeds s
  /\ acquisitions (fst (doApplyUpdate env s)) = acquisitions s
  /\ children (fst (doApplyUpdate env s)) = children s
  /\ polls (fst (doApplyUpdate env s)) = polls s
  /\ (fst (doApplyUpdate env s) = s
      \/ (availableUpdate s <> None
          /\ is_downloaded_or_downloading (state s) <> None
          /\ type (state (fst (doApplyUpdate env s))) = TUpdating
          /\ availableUpdate (fst (doApplyUpdate env s)) <> None
          /\ (markers (fst (doApplyUpdate env s)) = markers s
              \/ exists m, markers (fst (doApplyUpdate env s)) = markers s ++ [m]))).
Proof.
  unfold doApplyUpdate, setState. task_unfold.
  destruct (is_downloaded_or_downloading (state s)) as [u|] eqn:Hs; [| auto 10].
  destruct (availableUpdate s) as [a|] eqn:Ha; [| auto 10]. cbn.
  destruct (cachePath env); cbn; split_and!; try reflexivity; right;
    split_and!; try discriminate; try reflexivity; try congruence; eauto.
Qed.

(** What the end of a download does to the controller: the cycle fails and
    the service is [Idle]; or the package is recorded and no marker is
    written; or the package is recorded and the update applied. *)
Lemma acquire_control (env : Env) (io : IO) (context : any) (u : IUpdate) (s : Service) :
  feeds (fst (Task.catch (acquire env io u) (checkFailed env context) s)) = feeds s
  /\ acquisitions (fst (Task.catch (acquire env io u) (checkFailed env context) s))
     = acquisitions s
  /\ children (fst (Task.catch (acquire env io u) (checkFailed env context) s)) = children s
  /\ polls (fst (Task.catch (acquire env io u) (checkFailed env context) s)) = polls s
  /\ ((type (state (fst (Task.catch (acquire env io u) (checkFailed env context) s))) = TIdle
       /\ availableUpdate (fst (Task.catch (acquire env io u) (checkFailed env context) s))
          = availableUpdate s
       /\ markers (fst (Task.catch (acquire env io u) (checkFailed env context) s))
          = markers s)
      \/ (availableUpdate (fst (Task.catch (acquire env io u) (checkFailed env context) s))
          <> None
          /\ markers (fst (Task.catch (acquire env io u) (checkFailed env context) s))
             = markers s
          /\ (type (state (fst (Task.catch (acquire env io u) (checkFailed env context) s)))
              = TReady
              \/ type (state (fst (Task.catch (acquire env io u) (checkFailed env context) s)))
                 = TDownloaded
              \/ type (state (fst (Task.catch (acquire env io u) (checkFailed env context) s)))
                 = TUpdating
              \/ state (fst (Task.catch (acquire env io u) (checkFailed env context) s))
                 = state s))
      \/ (availableUpdate (fst (Task.catch (acquire env io u) (checkFailed env context) s))
          <> None
          /\ (exists m,
                 markers (fst (Task.catch (acquire env io u) (checkFailed env context) s))
                 = markers s ++ [m])
          /\ type (state (fst (Task.catch (acquire env io u) (checkFailed env context) s)))
             = TUpdating
          /\ is_downloaded_or_downloading (state s) <> None)).
Proof.
  unfold acquire, Task.catch, Task.bind.
  pose proof (cleanup_io_only env io (version u) s) as Hclean.
  destruct (cleanup env io (version u) s) as [s2 [[]|e]]; cbn [fst] in Hclean.
  - pose proof (fetchPackage_io_only env io u s2) as Hfetch.
    destruct (fetchPackage env io u s2) as [s3 [p|e]]; cbn [fst] in Hfetch.
    + assert (Hsame : same_control s s3) by (eapply same_control_trans; eauto).
      clear Hclean Hfetch.
      pose proof (packageReady_resolves env io u p s3) as Hres.
      pose proof (packageReady_eq env io u p s3) as Heq. cbv zeta in Heq.
      destruct (packageReady env io u p s3) as [s4 r]. cbn [fst snd] in *. subst r.
      unfold same_control in Hsame.
      destruct Hsame as (Hst & Hav & _ & _ & _ & _ & _ & Hfe & Hac & Hma & Hch & Hpo).
      destruct (fastUpdatesEnabled io && supportsFastUpdate u).
      * destruct (String.eqb (product_target env) "user").
        -- injection Heq as ->. cbn [fst].
           match goal with |- context [doApplyUpdate env ?x] => set (s1 := x) end.
           destruct (doApplyUpdate_control env s1)
             as (Hf & Ha & Hc & Hp & [Hnoop | (_ & Hd & Hup & Havail & Hm)]).
           ++ rewrite Hnoop. unfold s1. cbn.
              split_and!; try assumption. right. left.
              split_and!; [discriminate | assumption | auto].
           ++ rewrite Hf, Ha, Hc, Hp. unfold s1 at 1 2 3 4. cbn.
              split_and!; try assumption.
              destruct Hm as [Hm | [m Hm]].
              ** right. left. rewrite Hm. unfold s1. cbn. auto 10.
              ** right. right. rewrite Hm. unfold s1 at 2. cbn. rewrite Hma.
                 unfold s1 in Hd. cbn in Hd. rewrite Hst in Hd. eauto 10.
        -- injection Heq as ->. cbn. split_and!; try assumption. right. left.
           split_and!; [discriminate | assumption | auto].
      * injection Heq as ->. cbn. split_and!; try assumption. right. left.
        split_and!; [discriminate | assumption | auto].
    + assert (Hsame : same_control s s3) by (eapply same_control_trans; eauto).
      unfold same_control in Hsame. cbn. intuition.
  - unfold same_control in Hclean. cbn. intuition.
Qed.

Lemma acquisitionSettled_eq (env : Env) (io : IO) (s : Service) :
  fst (acquisitionSettled env io s) =
  match acquisitions s with
  | [] => s
  | (ctx, u) :: rest =>
      fst (Task.catch (acquire env io u) (checkFailed env ctx) (with_acquisitions rest s))
  end.
Proof.
  unfold acquisitionSettled, Task.bind, Task.get, Task.modify.
  now destruct (acquisitions s) as [|[ctx u] rest].
Qed.

(** Short of an installer's exit, a recorded update stays recorded. *)
Lemma step_keeps_record (env : Env) (s : Service) (e : Event) :
  is_exit e = false ->
  availableUpdate s <> None ->
  availableUpdate (step env s e) <> None.
Proof.
  intros He Hs. unfold step.
  destruct e; try discriminate He; cbn [handle].
  - unfold checkForUpdates, checkStarted, setState. task_unfold.
    repeat (cbn; try break_match); first [assumption | discriminate | congruence].
  - unfold feedSettled, feedParsed, checkFailed, setState, publicLog, logError. task_unfold.
    repeat (cbn; try break_match); first [assumption | discriminate | congruence].
  - rewrite acquisitionSettled_eq.
    destruct (acquisitions s) as [|[ctx u] rest]; [exact Hs |].
    destruct (acquire_control env io ctx u (with_acquisitions rest s))
      as (_ & _ & _ & _ & [(_ & Ha & _) | [(Ha & _) | (Ha & _)]]);
      [rewrite Ha; exact Hs | exact Ha | exact Ha].
  - destruct (doApplyUpdate_control env s) as (_ & _ & _ & _ & [-> | (_ & _ & _ & Ha & _)]);
      assumption.
  - unfold markerSettled, markerWritten, Pfs.writeFile, spawn. task_unfold.
    repeat (cbn; try break_match); try assumption; cbn in *; congruence.
  - unfold pollAttempt, setState. task_unfold.
    repeat (cbn; try break_match); first [assumption | discriminate | congruence].
  - unfold doQuitAndInstall, Pfs.unlinkSync, spawn. task_unfold.
    repeat (cbn; try break_match); first [assumption | discriminate | congruence].
  - unfold downloadUpdate, doDownloadUpdate, setState. task_unfold.
    repeat (cbn; try break_match); first [assumption | discriminate | congruence].
Qed.

(** A step after which the service is [Ready], or a poll runs, finds the
    service so already or leaves an update recorded. *)
Lemma step_awaits_install (env : Env) (s : Service) (e : Event) :
  is_exit e = false ->
  awaits_install (step env s e) ->
  awaits_install s \/ availableUpdate (step env s e) <> None.
Proof.
  intros He. unfold step, awaits_install.
  destruct e; try discriminate He; cbn [handle].
  - unfold checkForUpdates, checkStarted, setState. task_unfold.
    repeat (cbn; try break_match); intros [H | H]; auto; try discriminate H;
      match goal with Heq : state s = _ |- _ => rewrite Heq in H; discriminate H end.
  - unfold feedSettled, feedParsed, checkFailed, setState, publicLog, logError. task_unfold.
    repeat (cbn; try break_match); intros [H | H]; auto; try discriminate H;
      match goal with Heq : state s = _ |- _ => rewrite Heq in H; discriminate H end.
  - rewrite acquisitionSettled_eq.
    destruct (acquisitions s) as [|[ctx u] rest]; [intros H; left; exact H |].
    destruct (acquire_control env io ctx u (with_acquisitions rest s))
      as (_ & _ & _ & Hp & [(Hst & _ & _) | [(Ha & _) | (Ha & _)]]); [| auto | auto].
    rewrite Hp. cbn. intros [H | H]; [auto | congruence].
  - destruct (doApplyUpdate_control env s) as (_ & _ & _ & _ & [-> | (_ & _ & _ & Ha & _)]);
      auto.
  - unfold markerSettled, markerWritten, Pfs.writeFile, spawn. task_unfold.
    repeat (cbn; try break_match); intros [H | H]; auto;
      right; cbn in *; congruence.
  - unfold pollAttempt, setState. task_unfold.
    destruct (polls s !! i) as [u|] eqn:Hi; [| auto].
    intros _. left. left. intros Hnil. now rewrite Hnil in Hi.
  - unfold doQuitAndInstall, Pfs.unlinkSync, spawn. task_unfold.
    repeat (cbn; try break_match); intros [H | H]; auto; try discriminate H;
      match goal with Heq : state s = _ |- _ => rewrite Heq in H; discriminate H end.
  - unfold downloadUpdate, doDownloadUpdate, setState. task_unfold.
    repeat (cbn; try break_match); intros [H | H]; auto; try discriminate H;
      match goal with Heq : state s = _ |- _ => rewrite Heq in H; discriminate H end.
Qed.

Lemma run_keeps_awaited_record (env : Env) (trace : list Event) (s : Service) :
  forallb (fun e => negb (is_exit e)) trace = true ->
  (awaits_install s -> availableUpdate s <> None) ->
  awaits_install (run env s trace) -> availableUpdate (run env s trace) <> None.
Proof.
  revert s. induction trace as [|e trace IH]; intros s Ht Hs; [exact Hs |].
  cbn in Ht. apply andb_prop in Ht as [He Ht]. apply negb_true_iff in He.
  cbn [run fold_left]. apply IH; [exact Ht |]. intros Hawait.
  destruct (step_awaits_install env s e He Hawait) as [Hbefore | Hrec]; [| exact Hrec].
  apply step_keeps_record; auto.
Qed.

(** X16. Until an installer has exited, a service that is [Ready] has an
    update recorded: [doQuitAndInstall] finds the record it reads, and does
    not throw for want of it. *)
Theorem Ready_has_record_before_exit (env : Env) (fs : gmap string string)
  (trace : list Event) (u : IUpdate) :
  forallb (fun e => negb (is_exit e)) trace = true ->
  state (run env (initial env fs) trace) = Ready u ->
  (exists a, availableUpdate (run env (initial env fs) trace) = Some a)
  /\ snd (doQuitAndInstall (run env (initial env fs) trace)) <> Rejected TypeError.
Proof.
  intros Htrace Hready.
  assert (Hrec : availableUpdate (run env (initial env fs) trace) <> None).
  { apply run_keeps_awaited_record; [exact Htrace | |].
    - intros [H | H]; [now contradiction H | discriminate H].
    - right. now rewrite Hready. }
  destruct (availableUpdate (run env (initial env fs) trace)) as [a|] eqn:Ha;
    [| contradiction].
  split; [eauto |].
  destruct (doQuitAndInstall_with_record _ u a Hready Ha) as [-> | (_ & _ & _ & ->)];
    discriminate.
Qed.

Lemma Ready_has_record_before_exit_witness :
  forallb (fun e => negb (is_exit e))
    [CheckForUpdates null;
     FeedSettled (Resolved (Some (Example.update "3" None true)));
     AcquisitionSettled (Example.io "body" true);
     MarkerSettled None;
     PollAttempt 0 true] = true /\
  snd (doQuitAndInstall
         (run (Example.env "user") (initial (Example.env "user") ∅)
            [CheckForUpdates null;
             FeedSettled (Resolved (Some (Example.update "3" None true)));
             AcquisitionSettled (Example.io "body" true);
             MarkerSettled None;
             PollAttempt 0 true]))
  <> Rejected TypeError.
Proof.
  split; [reflexivity |].
  refine (proj2 (Ready_has_record_before_exit (Example.env "user") ∅
                   [CheckForUpdates null;
                    FeedSettled (Resolved (Some (Example.update "3" None true)));
                    AcquisitionSettled (Example.io "body" true);
                    MarkerSettled None;
                    PollAttempt 0 true]
                   (Example.update "3" None true) eq_refl _)).
  vm_compute. reflexivity.
Defined.
Ltac orderly_cases H :=
  let H1 := fresh "H1" in let H2 := fresh "H2" in let H3 := fresh "H3" in
  let H4 := fresh "H4" in let H5 := fresh "H5" in
  unfold orderly, outstanding in H; cbn in H;
  destruct H as (H1 & H2 & H3 & H4 & H5);
  match type of H1 with
  | length ?fe + length ?ac + length ?ma + ?ch <= 1 =>
      destruct fe as [|? [|? ?]], ac as [|? [|? ?]], ma as [|? [|? ?]], ch as [|[|?]];
      cbn in H1; try (exfalso; lia)
  end;
  clear H1; cbn in H2, H4, H5;
  first [specialize (H2 ltac:(discriminate)) | clear H2];
  first [specialize (H4 ltac:(left; discriminate))
        | specialize (H4 ltac:(right; discriminate)) | clear H4];
  first [specialize (H5 ltac:(left; discriminate))
        | specialize (H5 ltac:(right; discriminate)) | clear H5].

Ltac orderly_close :=
  unfold orderly, outstanding; cbn in *;
  split_and!; intros; try lia; try congruence; try discriminate;
  try solve [intuition (first [congruence | lia | discriminate])].

(** Every step keeps the service orderly. *)
Lemma step_orderly (env : Env) (s : Service) (e : Event) :
  orderly s -> orderly (step env s e).
Proof.
  intros H. unfold step. destruct e; cbn [handle].
  - destruct s as [st av fl an te el rq sp op fe ac ma ch po]. orderly_cases H.
    all: unfold checkForUpdates, checkStarted, setState; task_unfold;
      repeat (cbn; try break_match); orderly_close.
  - destruct s as [st av fl an te el rq sp op fe ac ma ch po]. orderly_cases H.
    all: unfold feedSettled, feedParsed, checkFailed, setState, publicLog, logError; task_unfold;
      repeat (cbn; try break_match); orderly_close.
  - rewrite acquisitionSettled_eq.
    destruct (acquisitions s) as [|[ctx u] rest] eqn:Hacq; [exact H |].
    pose proof (acquire_control env io ctx u (with_acquisitions rest s)) as Hc.
    set (s' := fst (Task.catch (acquire env io u) (checkFailed env ctx)
                      (with_acquisitions rest s))) in *.
    clearbody s'.
    destruct s as [st av fl an te el rq sp op fe ac ma ch po].
    destruct s' as [st' av' fl' an' te' el' rq' sp' op' fe' ac' ma' ch' po'].
    cbn in *. destruct Hc as (-> & -> & -> & -> & Hc).
    orderly_cases H; simplify_eq;
    destruct Hc as [(Hst & -> & ->) | [(Ha & -> & Hst) | (Ha & [m ->] & Hst & _)]];
      orderly_close.
  - pose proof (doApplyUpdate_control env s) as Hc.
    set (s' := fst (doApplyUpdate env s)) in *. clearbody s'.
    destruct Hc as (Hf & Hq & Hch & _ & [-> | (Ha & Hd & Hst & Ha' & Hm)]); [exact H |].
    destruct s as [st av fl an te el rq sp op fe ac ma ch po].
    destruct s' as [st' av' fl' an' te' el' rq' sp' op' fe' ac' ma' ch' po'].
    cbn in *. subst fe' ac' ch'.
    orderly_cases H;
      try (destruct st; cbn in *; intuition congruence);
      destruct Hm as [-> | [m ->]]; orderly_close.
  - destruct s as [st av fl an te el rq sp op fe ac ma ch po]. orderly_cases H.
    all: unfold markerSettled, markerWritten, Pfs.writeFile, spawn; task_unfold;
      repeat (cbn; try break_match); orderly_close.
  - destruct s as [st av fl an te el rq sp op fe ac ma ch po]. orderly_cases H.
    all: unfold installerExit, installerExited, setState; task_unfold;
      repeat (cbn; try break_match); orderly_close.
  - destruct s as [st av fl an te el rq sp op fe ac ma ch po]. orderly_cases H.
    all: unfold pollAttempt, setState; task_unfold;
      repeat (cbn; try break_match); orderly_close.
  - destruct s as [st av fl an te el rq sp op fe ac ma ch po]. orderly_cases H.
    all: unfold doQuitAndInstall, Pfs.unlinkSync, spawn; task_unfold;
      repeat (cbn; try break_match); orderly_close.
  - destruct s as [st av fl an te el rq sp op fe ac ma ch po]. orderly_cases H.
    all: unfold downloadUpdate, doDownloadUpdate, setState; task_unfold;
      repeat (cbn; try break_match); orderly_close.
Qed.
(** X17. From construction on, whatever happens, at most one piece of work
    is outstanding: one feed request, one download, one marker being
    written or one installer running. There is none while the service is
    [Idle] or [AvailableForDownload], and then no update is recorded; and
    while a marker is written or an installer runs, an update is recorded
    and the service is [Updating] or [Ready]. *)
Theorem one_operation_at_a_time (env : Env) (fs : gmap string string) (trace : list Event) :
  orderly (run env (initial env fs) trace).
Proof.
  assert (Hrun : forall s, orderly s -> orderly (run env s trace)).
  { induction trace as [|e trace IH]; intros s Hs; [exact Hs |].
    cbn [run fold_left]. apply IH. now apply step_orderly. }
  apply Hrun. unfold orderly, outstanding, initial. cbn.
  split_and!; intros; try lia; try congruence; intuition congruence.
Qed.






Section Outside.

Variables (env : Env) (p : string).
Hypothesis Hout : outside env p.









End Outside.


(** X20. [doQuitAndInstall] keeps no trace of having run, so a second call
    does the same again. On the fast path the marker file is gone after the
    first call and the second throws [ENOENT], changing nothing; otherwise
    the installer is spawned a second time. *)
Theorem doQuitAndInstall_again (s : Service) (u : IUpdate) (a : IAvailableUpdate) :
  state s = Ready u -> availableUpdate s = Some a ->
  let once := fst (doQuitAndInstall s) in
  if supportsFastUpdate u && truthy_opt (updateFilePath a)
  then doQuitAndInstall once = (once, Rejected Pfs.ENOENT)
  else spawned (fst (doQuitAndInstall once))
       = (packagePath a, silentArgs) :: (packagePath a, silentArgs) :: spawned s.
Proof.
  intros Hs Ha. cbv zeta.
  unfold doQuitAndInstall, Pfs.unlinkSync, spawn. task_unfold. rewrite Hs, Ha.
  destruct (supportsFastUpdate u) eqn:Hfast; cbn [andb].
  - destruct (updateFilePath a) as [flag|] eqn:Hflag; cbn [truthy_opt].
    + destruct (truthy_string flag) eqn:Htruthy.
      * destruct (files s !! flag) as [c|] eqn:Hfile; cbn.
        -- rewrite Hs, Ha, Hfast, Hflag, Htruthy. cbn [files with_files]. now rewrite lookup_delete_eq.
        -- now rewrite Hs, Ha, Hfast, Hflag, Htruthy, Hfile.
      * cbn. now rewrite Hs, Ha, Hfast, Hflag, Htruthy.
    + cbn. now rewrite Hs, Ha, Hfast, Hflag.
  - cbn. now rewrite Hs, Ha, Hfast.
Qed.

Lemma doQuitAndInstall_again_witness :
  doQuitAndInstall
    (fst (doQuitAndInstall
            (run (Example.env "user") (initial (Example.env "user") ∅)
               [CheckForUpdates null;
                FeedSettled (Resolved (Some (Example.update "3" None true)));
                AcquisitionSettled (Example.io "body" true);
                MarkerSettled None;
                PollAttempt 0 true])))
  = (fst (doQuitAndInstall
            (run (Example.env "user") (initial (Example.env "user") ∅)
               [CheckForUpdates null;
                FeedSettled (Resolved (Some (Example.update "3" None true)));
                AcquisitionSettled (Example.io "body" true);
                MarkerSettled None;
                PollAttempt 0 true])),
     Rejected Pfs.ENOENT).
Proof.
  exact (doQuitAndInstall_again
           (run (Example.env "user") (initial (Example.env "user") ∅)
              [CheckForUpdates null;
               FeedSettled (Resolved (Some (Example.update "3" None true)));
               AcquisitionSettled (Example.io "body" true);
               MarkerSettled None;
               PollAttempt 0 true])
           (Example.update "3" None true)
           {| packagePath := Path.join Example.dir "CodeSetup-stable-3.exe";
              updateFilePath := Some (Path.join Example.dir "CodeSetup-stable-3.flag") |}
           eq_refl eq_refl).
Defined.


